(** * PaperWrite: session state and continuous-view reconciliation

    A shallow embedding of the document model ([types.ts]), the row and
    document handlers of [App.tsx], the local-storage helpers of
    [hooks/useLocalStorage.ts], the generation service
    ([services/openai.ts]) and the continuous-view sync of
    [FullDocumentModal.tsx], followed by the properties proved of them. *)

From Stdlib Require Import List Bool Arith NArith ZArith Lia String Ascii.
From Stdlib Require Import DecimalString.
Import ListNotations.

Set Implicit Arguments.

(** ** JavaScript strings

    A JavaScript string is a sequence of UTF-16 code units.  [lit] embeds
    an ASCII literal of the source. *)

Module JS.

Definition jsstring := list N.

Definition lit (s : string) : jsstring :=
  map N_of_ascii (list_ascii_of_string s).

Definition jsstring_eq_dec : forall a b : jsstring, {a = b} + {a <> b} :=
  list_eq_dec N.eq_dec.

Definition streq (a b : jsstring) : bool :=
  if jsstring_eq_dec a b then true else false.

(** ECMAScript [WhiteSpace] and [LineTerminator] code units: the set that
    [String.prototype.trim] strips. *)
Definition isWhiteSpace (c : N) : bool :=
  (((9 <=? c) && (c <=? 13)) || (c =? 32) || (c =? 160) || (c =? 5760)
   || ((8192 <=? c) && (c <=? 8202)) || (c =? 8232) || (c =? 8233)
   || (c =? 8239) || (c =? 8287) || (c =? 12288) || (c =? 65279))%N.

Fixpoint trimStart (s : jsstring) : jsstring :=
  match s with
  | [] => []
  | c :: rest => if isWhiteSpace c then trimStart rest else s
  end.

Definition trimEnd (s : jsstring) : jsstring := rev (trimStart (rev s)).

Definition trim (s : jsstring) : jsstring := trimEnd (trimStart s).

(** The string does not start with white space. *)
Definition noLead (s : jsstring) : Prop :=
  match s with
  | [] => True
  | c :: _ => isWhiteSpace c = false
  end.

(** Truthiness of a string: the empty string is falsy. *)
Definition truthy (s : jsstring) : bool :=
  match s with [] => false | _ :: _ => true end.

(** [a || b] on strings. *)
Definition orElse (a b : jsstring) : jsstring := if truthy a then a else b.

(** [x || b] where [x] may be [undefined] / [null]. *)
Definition optOrElse (a : option jsstring) (b : jsstring) : jsstring :=
  match a with
  | Some s => orElse s b
  | None => b
  end.

(** [n.toString()] for a non-negative integer. *)
Definition numberToString (n : N) : jsstring :=
  lit (NilZero.string_of_uint (N.to_uint n)).

(** [s.substring(0, k)]. *)
Definition substring0 (k : nat) (s : jsstring) : jsstring := firstn k s.

End JS.
Import JS.

(** ** Document model ([types.ts]) *)

Record AiPrompt := {
  wordCount : Z;
  tone : jsstring;
  prompt : jsstring
}.

Record SectionInputs := {
  facts : list jsstring;
  concepts : list jsstring;
  opinions : list jsstring;
  examples : list jsstring;
  other : list jsstring
}.

Record ExpandedInputs := {
  exp_facts : bool;
  exp_concepts : bool;
  exp_opinions : bool;
  exp_examples : bool;
  exp_other : bool
}.

Record DocumentRow := {
  id : jsstring;
  title : jsstring;
  input : jsstring;
  aiPrompt : AiPrompt;
  output : jsstring;
  isExpanded : bool;
  isLoading : option bool;
  error : option jsstring;
  sectionInputs : SectionInputs;
  expandedInputs : ExpandedInputs
}.

(** Timestamps are kept as milliseconds since the epoch; the source stores
    their ISO rendering and compares [new Date(s).getTime()]. *)
Record SavedDocument := {
  doc_id : jsstring;
  doc_title : jsstring;
  createdAt : Z;
  updatedAt : Z;
  doc_rows : list DocumentRow
}.

(** [{ ...row, title, output }] and friends. *)
Definition set_title_output (r : DocumentRow) (t o : jsstring) : DocumentRow :=
  {| id := id r; title := t; input := input r; aiPrompt := aiPrompt r;
     output := o; isExpanded := isExpanded r; isLoading := isLoading r;
     error := error r; sectionInputs := sectionInputs r;
     expandedInputs := expandedInputs r |}.

Definition set_input (r : DocumentRow) (i : jsstring) : DocumentRow :=
  {| id := id r; title := title r; input := i; aiPrompt := aiPrompt r;
     output := output r; isExpanded := isExpanded r; isLoading := isLoading r;
     error := error r; sectionInputs := sectionInputs r;
     expandedInputs := expandedInputs r |}.

Definition set_loading_error (r : DocumentRow) (l : option bool)
    (e : option jsstring) : DocumentRow :=
  {| id := id r; title := title r; input := input r; aiPrompt := aiPrompt r;
     output := output r; isExpanded := isExpanded r; isLoading := l;
     error := e; sectionInputs := sectionInputs r;
     expandedInputs := expandedInputs r |}.

Definition set_output_loading (r : DocumentRow) (o : jsstring)
    (l : option bool) : DocumentRow :=
  {| id := id r; title := title r; input := input r; aiPrompt := aiPrompt r;
     output := o; isExpanded := isExpanded r; isLoading := l;
     error := error r; sectionInputs := sectionInputs r;
     expandedInputs := expandedInputs r |}.

(** [createInitialRow(id, input, title)] with [id] already a string. *)
Definition createInitialRowWith (i inp t : jsstring) : DocumentRow :=
  {| id := i;
     title := orElse t (lit "Section " ++ substring0 4 i);
     input := inp;
     aiPrompt := {| wordCount := 100; tone := lit "professional"; prompt := [] |};
     output := [];
     isExpanded := true;
     isLoading := Some false;
     error := None;
     sectionInputs := {| facts := [[]]; concepts := [[]]; opinions := [[]];
                         examples := [[]]; other := [[]] |};
     expandedInputs := {| exp_facts := false; exp_concepts := false;
                          exp_opinions := false; exp_examples := false;
                          exp_other := false |} |}.

(** [createInitialRow()]: the id defaults to [Date.now().toString()]; the
    clock reading is an input of the model. *)
Definition createInitialRow (now : N) : DocumentRow :=
  createInitialRowWith (numberToString now) [] [].

(** ** Continuous view ([FullDocumentModal.tsx]) *)

Module Continuous.

(** The part of a DOM node the sync reads.  [outerHTML] is [undefined] on
    text and comment nodes. *)
Record Node := {
  nodeName : jsstring;
  outerHTML : option jsstring;
  textContent : option jsstring
}.

Record SectionData := {
  sd_title : jsstring;
  outputHTML : jsstring
}.

Definition untitled : jsstring := lit "Untitled Section".

Definition newline : jsstring := [10%N].

(** The separator of [join]: a rule with its class attribute between two
    newlines. *)
Definition separator : jsstring :=
  newline ++ lit "<hr class=" ++ [34%N] ++ lit "my-4 border-gray-700"
          ++ [34%N] ++ lit ">" ++ newline.

Fixpoint join (sep : jsstring) (l : list jsstring) : jsstring :=
  match l with
  | [] => []
  | [x] => x
  | x :: rest => x ++ sep ++ join sep rest
  end.

(** One section of the merged markup: a level-2 heading, a newline, the
    section's output. *)
Definition renderRow (row : DocumentRow) : jsstring :=
  lit "<h2>" ++ orElse (title row) untitled ++ lit "</h2>" ++ newline
             ++ output row.

(** [combinedHtml] of the continuous-view effect. *)
Definition combinedHtml (rows : list DocumentRow) : jsstring :=
  join separator (map renderRow rows).

(** State of the node scan.  [currentSection] aliases the last element
    pushed on [newSectionsData]; the array is [closed ++ current], so that
    appending to [currentSection] is appending to the last element. *)
Record ScanState := {
  closed : list SectionData;
  currentSection : option SectionData
}.

Definition newSectionsData (st : ScanState) : list SectionData :=
  closed st ++ match currentSection st with Some c => [c] | None => [] end.

Definition isH2 (n : Node) : bool := streq (nodeName n) (lit "H2").
Definition isHR (n : Node) : bool := streq (nodeName n) (lit "HR").

(** [(node as Element).outerHTML || node.textContent || ''] *)
Definition nodeMarkup (n : Node) : jsstring :=
  optOrElse (outerHTML n) (optOrElse (textContent n) []).

(** [node.textContent?.trim()] as a condition. *)
Definition hasVisibleText (n : Node) : bool :=
  match textContent n with
  | Some t => truthy (trim t)
  | None => false
  end.

Definition appendMarkup (c : SectionData) (m : jsstring) : SectionData :=
  {| sd_title := sd_title c; outputHTML := outputHTML c ++ m |}.

(** Body of [parsedNodes.forEach]. *)
Definition scanNode (st : ScanState) (n : Node) : ScanState :=
  if isH2 n then
    {| closed := newSectionsData st;
       currentSection :=
         Some {| sd_title := trim (optOrElse (textContent n) untitled);
                 outputHTML := [] |} |}
  else
    match currentSection st with
    | Some c =>
        if negb (isHR n)
        then {| closed := closed st;
                currentSection := Some (appendMarkup c (nodeMarkup n)) |}
        else st
    | None =>
        if negb (isHR n) && hasVisibleText n then
          match newSectionsData st with
          | [] =>
              {| closed := [];
                 currentSection :=
                   Some (appendMarkup {| sd_title := untitled; outputHTML := [] |}
                                      (nodeMarkup n)) |}
          | _ :: _ => st
          end
        else st
    end.

(** The markup a run of nodes adds to the open section. *)
Definition sectionBody (content : list Node) : jsstring :=
  List.concat (map nodeMarkup (filter (fun n => negb (isHR n)) content)).

Definition scanStart : ScanState := {| closed := []; currentSection := None |}.

Definition scanNodes (nodes : list Node) : ScanState :=
  fold_left scanNode nodes scanStart.

Definition trimSection (s : SectionData) : SectionData :=
  {| sd_title := sd_title s; outputHTML := trim (outputHTML s) |}.

(** The derived sections: the scan followed by the trimming pass. *)
Definition deriveSections (nodes : list Node) : list SectionData :=
  map trimSection (newSectionsData (scanNodes nodes)).

Inductive StatusType := Idle | Success | Error.

Record SyncStatus := {
  st_type : StatusType;
  st_message : jsstring
}.

Definition natToString (n : nat) : jsstring := numberToString (N.of_nat n).

(** Message of the error thrown by the count validation. *)
Definition mismatchMessage (derived expected : nat) : jsstring :=
  lit "Parsing resulted in " ++ natToString derived
    ++ lit " sections, but expected " ++ natToString expected
    ++ lit ". Structure may have been changed too much. Sync aborted.".

(** A row returned by the update map is either the original object or a
    fresh copy with the title and output replaced. *)
Inductive RowUpdate :=
| SameObject (r : DocumentRow)
| NewObject (r : DocumentRow).

Definition rowOf (u : RowUpdate) : DocumentRow :=
  match u with SameObject r => r | NewObject r => r end.

Definition strneq (a b : jsstring) : bool := negb (streq a b).

(** Callback of [rows.map((originalRow, index) => ...)]. *)
Definition updateRow (derived : list SectionData) (originalRow : DocumentRow)
    (index : nat) : RowUpdate :=
  match nth_error derived index with
  | None => SameObject originalRow
  | Some newData =>
      if strneq (title originalRow) (sd_title newData)
         || strneq (output originalRow) (outputHTML newData)
      then NewObject (set_title_output originalRow (sd_title newData)
                                       (outputHTML newData))
      else SameObject originalRow
  end.

Fixpoint mapi_from {A B} (f : A -> nat -> B) (i : nat) (l : list A) : list B :=
  match l with
  | [] => []
  | x :: rest => f x i :: mapi_from f (S i) rest
  end.

Definition updatedRows (derived : list SectionData) (rows : list DocumentRow)
    : list RowUpdate :=
  mapi_from (updateRow derived) 0 rows.

Section Sync.

(** [parser.parseFromString(s, 'text/html').body.firstChild?.childNodes]:
    the platform parser, [None] when the wrapper is missing. *)
Variable wrapperChildNodes : jsstring -> option (list Node).

Definition wrap (continuousContent : jsstring) : jsstring :=
  lit "<div>" ++ continuousContent ++ lit "</div>".

(** [Split]: the parse and validation part of the handler. *)
Definition split (continuousContent : jsstring) (expected : nat)
    : list SectionData + jsstring :=
  match wrapperChildNodes (wrap continuousContent) with
  | None => inr (lit "Could not parse content.")
  | Some parsedNodes =>
      let derived := deriveSections parsedNodes in
      if negb (List.length derived =? expected)
      then inr (mismatchMessage (List.length derived) expected)
      else inl derived
  end.

(** [handleSyncContinuousChanges]: the argument [onUpdateAllRows] is
    called with, if it is called, and the sync status set last. *)
Definition handleSyncContinuousChanges (continuousContent : jsstring)
    (rows : list DocumentRow) : option (list RowUpdate) * SyncStatus :=
  match split continuousContent (List.length rows) with
  | inr msg => (None, {| st_type := Error; st_message := msg |})
  | inl derived =>
      (Some (updatedRows derived rows),
       {| st_type := Success;
          st_message := lit "Changes synced successfully!" |})
  end.

(** The application's rows after the handler: [handleUpdateAllRows]
    replaces them when [onUpdateAllRows] was called. *)
Definition rowsAfterSync (continuousContent : jsstring)
    (rows : list DocumentRow) : list DocumentRow :=
  match fst (handleSyncContinuousChanges continuousContent rows) with
  | Some updated => map rowOf updated
  | None => rows
  end.

End Sync.

(** *** Merge followed by split *)

(** The round trip as the specification words it: the split of the merged
    markup succeeds and gives back the titles and the outputs. *)
Definition leftInverse (parse : jsstring -> option (list Node))
    (rows : list DocumentRow) : Prop :=
  exists derived,
    split parse (combinedHtml rows) (List.length rows) = inl derived
    /\ map sd_title derived = map title rows
    /\ map outputHTML derived = map output rows.

(** A heading node with the nodes up to the next heading. *)
Definition Segment := (Node * list Node)%type.





(** Title and output that the rendering and the trimming leave alone. *)
Definition plainRow (row : DocumentRow) : Prop :=
  title row <> [] /\ trim (title row) = title row
  /\ trim (output row) = output row.

End Continuous.
Import Continuous.

(** ** A model of the platform parser on plain markup

    [Dom.wrapperChildNodes] stands for the browser's [DOMParser] on the
    markup the editor produces: text, elements with lower-case tag names
    (possibly nested, attribute values without [>]) and the void elements
    [hr], [br] and [img]; no comments and no character references.  On
    such markup an element serialises back to its source text.  It is used
    to evaluate the sync on concrete documents; the general statements are
    about an arbitrary parser. *)

Module Dom.

Record Lexer := {
  depth : nat;                 (* open elements of the current child *)
  raw : jsstring;              (* source of the current child, reversed *)
  txt : jsstring;              (* its text content, reversed *)
  name : jsstring;             (* its tag name *)
  tag : option jsstring;       (* inside [<...>]: the tag so far, reversed *)
  out : list Node              (* finished children, reversed *)
}.

Definition lt_ : N := 60%N.
Definition gt_ : N := 62%N.
Definition slash_ : N := 47%N.

Definition isTagNameChar (c : N) : bool :=
  (((97 <=? c) && (c <=? 122)) || ((65 <=? c) && (c <=? 90))
   || ((48 <=? c) && (c <=? 57)))%N.

Fixpoint takeName (t : jsstring) : jsstring :=
  match t with
  | c :: rest => if isTagNameChar c then c :: takeName rest else []
  | [] => []
  end.

Definition upper (c : N) : N :=
  if ((97 <=? c) && (c <=? 122))%N then (c - 32)%N else c.

Definition isVoid (n : jsstring) : bool :=
  streq n (lit "hr") || streq n (lit "br") || streq n (lit "img").

Definition textNode (t : jsstring) : Node :=
  {| nodeName := lit "#text"; outerHTML := None; textContent := Some t |}.

Definition elementNode (n src t : jsstring) : Node :=
  {| nodeName := map upper n; outerHTML := Some src; textContent := Some t |}.

(** Children finished so far, with the pending top-level text flushed. *)
Definition flushText (lx : Lexer) : list Node :=
  match depth lx, raw lx with
  | O, _ :: _ => textNode (rev (raw lx)) :: out lx
  | _, _ => out lx
  end.

(** A complete tag [<t>] has been read. *)
Definition closeTag (lx : Lexer) (t : jsstring) : Lexer :=
  let src := lt_ :: t ++ [gt_] in
  match t with
  | c :: rest =>
      if (c =? slash_)%N then
        match depth lx with
        | O => {| depth := 0; raw := raw lx; txt := txt lx; name := name lx;
                  tag := None; out := out lx |}
        | S O =>
            {| depth := 0; raw := []; txt := []; name := []; tag := None;
               out := elementNode (name lx) (rev (raw lx) ++ src)
                                  (rev (txt lx)) :: out lx |}
        | S d => {| depth := d; raw := rev src ++ raw lx; txt := txt lx;
                    name := name lx; tag := None; out := out lx |}
        end
      else
        let n := takeName t in
        match depth lx with
        | O =>
            if isVoid n
            then {| depth := 0; raw := []; txt := []; name := []; tag := None;
                    out := elementNode n src [] :: flushText lx |}
            else {| depth := 1; raw := rev src; txt := []; name := n;
                    tag := None; out := flushText lx |}
        | S d =>
            {| depth := if isVoid n then S d else S (S d);
               raw := rev src ++ raw lx; txt := txt lx; name := name lx;
               tag := None; out := out lx |}
        end
  | [] => lx
  end.

Definition lexChar (lx : Lexer) (c : N) : Lexer :=
  match tag lx with
  | Some buf =>
      if (c =? gt_)%N then closeTag lx (rev buf)
      else {| depth := depth lx; raw := raw lx; txt := txt lx;
              name := name lx; tag := Some (c :: buf); out := out lx |}
  | None =>
      if (c =? lt_)%N
      then {| depth := depth lx; raw := raw lx; txt := txt lx;
              name := name lx; tag := Some []; out := out lx |}
      else {| depth := depth lx; raw := c :: raw lx; txt := c :: txt lx;
              name := name lx; tag := None; out := out lx |}
  end.

Definition lexStart : Lexer :=
  {| depth := 0; raw := []; txt := []; name := []; tag := None; out := [] |}.

Definition finish (lx : Lexer) : list Node :=
  match depth lx with
  | O => rev (flushText lx)
  | S _ => rev (elementNode (name lx) (rev (raw lx)) (rev (txt lx)) :: out lx)
  end.

Definition childNodes (s : jsstring) : list Node :=
  finish (fold_left lexChar s lexStart).

Fixpoint stripPrefix (p s : jsstring) : option jsstring :=
  match p, s with
  | [], _ => Some s
  | a :: p', b :: s' => if (a =? b)%N then stripPrefix p' s' else None
  | _ :: _, [] => None
  end.

Definition stripSuffix (p s : jsstring) : option jsstring :=
  option_map (@rev N) (stripPrefix (rev p) (rev s)).

(** Children of the wrapper [div] of [<div>content</div>]. *)
Definition wrapperChildNodes (s : jsstring) : option (list Node) :=
  match stripPrefix (lit "<div>") s with
  | Some rest =>
      match stripSuffix (lit "</div>") rest with
      | Some inner => Some (childNodes inner)
      | None => None
      end
  | None => None
  end.

End Dom.

(** ** Markup trees

    The markup the parser model reads without loss: text, void elements
    and elements with children.  [render] writes a tree as source text;
    [nodesOf] gives the child nodes the model makes of a rendered
    forest. *)

Module Markup.

#[warnings="-register-all"] Inductive Markup :=
| MText (t : jsstring)
| MVoid (name attrs : jsstring)
| MElem (name attrs : jsstring) (children : list Markup).





Fixpoint text (m : Markup) : jsstring :=
  match m with
  | MText t => t
  | MVoid _ _ => []
  | MElem _ _ cs => List.concat (map text cs)
  end.





Definition flushText (pending : jsstring) : list Node :=
  match pending with
  | [] => []
  | _ :: _ => [Dom.textNode pending]
  end.


(** *** Plain markup

    Text without markup characters, character references, carriage
    returns, NUL or no-break spaces (which a serialiser writes as a
    character reference); line breaks; inline formatting; paragraphs and
    level-1 and level-3 headings holding inline content; block quotes and
    divisions holding blocks.  No attributes, no level-2 heading, no
    rule.  On such markup the parser of a browser builds the tree as
    written and serialises each element back to its source. *)











(** *** The merged document as a forest *)








(** *** Auxiliary notions for the proofs *)

(** Induction on markup trees, with the children as a list. *)
Section MarkupInduction.

Variable P : Markup -> Prop.
Hypothesis Ht : forall t, P (MText t).
Hypothesis Hv : forall n a, P (MVoid n a).
Hypothesis He : forall n a cs, Forall P cs -> P (MElem n a cs).


End MarkupInduction.







End Markup.
Import Markup.

(** ** Local storage helpers ([hooks/useLocalStorage.ts]) *)

Module Storage.

(** What a key holds: text that [JSON.parse] rejects, or the value a
    well-formed item decodes to. *)
Inductive Item (T : Type) :=
| Malformed
| Json (v : T).
Arguments Malformed {T}.
Arguments Json {T} v.

(** [window.localStorage]: the three keys of the application, and whether
    access throws (storage disabled, quota exhausted). *)
Record LocalStorage := {
  readThrows : bool;
  writeThrows : bool;
  rowsItem : option (Item (list DocumentRow));
  docsItem : option (Item (list SavedDocument));
  idItem : option (Item (option jsstring))
}.

(** [getItem(key, initialValue)]: every failure is caught inside and
    answered with [initialValue]. *)
Definition getItem {T} (throws : bool) (item : option (Item T))
    (initialValue : T) : T :=
  if throws then initialValue
  else match item with
       | None => initialValue
       | Some Malformed => initialValue
       | Some (Json v) => v
       end.

(** [setItem(key, value)] for each key: a failing write is caught inside
    and leaves the store as it was. *)
Definition setRows (ls : LocalStorage) (v : list DocumentRow) : LocalStorage :=
  if writeThrows ls then ls
  else {| readThrows := readThrows ls; writeThrows := writeThrows ls;
          rowsItem := Some (Json v); docsItem := docsItem ls;
          idItem := idItem ls |}.

Definition setDocs (ls : LocalStorage) (v : list SavedDocument) : LocalStorage :=
  if writeThrows ls then ls
  else {| readThrows := readThrows ls; writeThrows := writeThrows ls;
          rowsItem := rowsItem ls; docsItem := Some (Json v);
          idItem := idItem ls |}.

Definition setId (ls : LocalStorage) (v : option jsstring) : LocalStorage :=
  if writeThrows ls then ls
  else {| readThrows := readThrows ls; writeThrows := writeThrows ls;
          rowsItem := rowsItem ls; docsItem := docsItem ls;
          idItem := Some (Json v) |}.

End Storage.
Import Storage.

(** ** Generation service ([services/openai.ts]) *)

Module OpenAI.

(** What [openai.chat.completions.create] does: it resolves with a
    response whose first choice has some content or none, or it rejects
    with an [Error] or with another value. *)
Inductive ApiResponse :=
| ApiContent (content : option jsstring)
| ApiThrowsError (message : jsstring)
| ApiThrowsOther.

(** [generateText(row)]: [inl] is the returned string, [inr] the message
    of the error thrown.  [ready] says that the client and the model are
    set.  The prompt built from the row is the request the collaborator
    answers. *)
Definition generateText (ready : bool) (resp : ApiResponse)
    : jsstring + jsstring :=
  if negb ready then inr (lit "OpenAI client or model not initialized")
  else match resp with
       | ApiContent (Some ((_ :: _) as content)) => inl content
       | ApiContent _ => inl (lit "Error: No content received from API.")
       | ApiThrowsError message =>
           inl (lit "Error generating text: " ++ message)
       | ApiThrowsOther =>
           inl (lit "An unknown error occurred while generating text.")
       end.

End OpenAI.
Import OpenAI.

(** ** Application state and handlers ([App.tsx]) *)

Module App.

Inductive OperatingMode := Loading | Supabase | Local | ModeError.

Record State := {
  operatingMode : OperatingMode;
  appError : option jsstring;
  rows : list DocumentRow;
  savedDocuments : list SavedDocument;
  currentDocumentId : option jsstring;
  isAiInitialized : bool
}.

Definition with_mode (s : State) (m : OperatingMode) : State :=
  {| operatingMode := m; appError := appError s; rows := rows s;
     savedDocuments := savedDocuments s;
     currentDocumentId := currentDocumentId s;
     isAiInitialized := isAiInitialized s |}.

Definition with_error (s : State) (e : option jsstring) : State :=
  {| operatingMode := operatingMode s; appError := e; rows := rows s;
     savedDocuments := savedDocuments s;
     currentDocumentId := currentDocumentId s;
     isAiInitialized := isAiInitialized s |}.

Definition with_rows (s : State) (r : list DocumentRow) : State :=
  {| operatingMode := operatingMode s; appError := appError s; rows := r;
     savedDocuments := savedDocuments s;
     currentDocumentId := currentDocumentId s;
     isAiInitialized := isAiInitialized s |}.

Definition with_docs (s : State) (d : list SavedDocument) : State :=
  {| operatingMode := operatingMode s; appError := appError s; rows := rows s;
     savedDocuments := d; currentDocumentId := currentDocumentId s;
     isAiInitialized := isAiInitialized s |}.

Definition with_current (s : State) (c : option jsstring) : State :=
  {| operatingMode := operatingMode s; appError := appError s; rows := rows s;
     savedDocuments := savedDocuments s; currentDocumentId := c;
     isAiInitialized := isAiInitialized s |}.

(** [a === b] for [string | null]. *)
Definition idEq (a b : option jsstring) : bool :=
  match a, b with
  | Some x, Some y => streq x y
  | None, None => true
  | _, _ => false
  end.

(** Truthiness of [string | null]. *)
Definition idTruthy (a : option jsstring) : bool :=
  match a with Some x => truthy x | None => false end.

(** *** Row handlers *)

Definition handleAddRow (now : N) (s : State) : State :=
  with_rows s (rows s ++ [createInitialRow now]).

Definition handleDeleteRow (i : jsstring) (s : State) : State :=
  if 1 <? List.length (rows s)
  then with_rows s (filter (fun row => negb (streq (id row) i)) (rows s))
  else s.

Definition mapRow (i : jsstring) (f : DocumentRow -> DocumentRow)
    (l : list DocumentRow) : list DocumentRow :=
  map (fun r => if streq (id r) i then f r else r) l.

Definition handleUpdateTitle (i t : jsstring) (s : State) : State :=
  with_rows s (mapRow i (fun r => set_title_output r t (output r)) (rows s)).

Definition handleUpdateInput (i inp : jsstring) (s : State) : State :=
  with_rows s (mapRow i (fun r => set_input r inp) (rows s)).

Definition handleUpdateOutput (i o : jsstring) (s : State) : State :=
  with_rows s (mapRow i (fun r => set_title_output r (title r) o) (rows s)).

Definition handleUpdateAllRows (updated : list DocumentRow) (s : State)
    : State :=
  with_rows s updated.

(** [handleGenerateText(id)].  [ready] and [resp] are the state of the
    service and the answer of the collaborator. *)
Definition handleGenerateText (i : jsstring) (ready : bool)
    (resp : ApiResponse) (s : State) : State :=
  if negb (isAiInitialized s) then
    with_rows s
      (mapRow i (fun r => set_loading_error r (Some false)
                            (Some (lit "OpenAI client not initialized.")))
              (rows s))
  else
    match find (fun r => streq (id r) i) (rows s) with
    | None => s
    | Some _ =>
        let pending :=
          mapRow i (fun r => set_loading_error r (Some true) None) (rows s) in
        match generateText ready resp with
        | inl generatedText =>
            with_rows s
              (mapRow i (fun r => set_output_loading r generatedText
                                    (Some false)) pending)
        | inr message =>
            with_rows s
              (mapRow i (fun r => set_loading_error r (Some false)
                                    (Some message)) pending)
        end
    end.

(** Updater of [handleImportDocument]. *)
Definition importRows (now : N) (text : jsstring)
    (prevRows : list DocumentRow) : list DocumentRow :=
  let lastIndex := (Z.of_nat (List.length prevRows) - 1)%Z in
  match last (map Some prevRows) None with
  | Some currentRow =>
      if negb (truthy (trim (input currentRow)))
      then mapi_from (fun row index =>
                        if (Z.of_nat index =? lastIndex)%Z
                        then set_input row text else row) 0 prevRows
      else prevRows ++ [createInitialRowWith (numberToString now) text []]
  | None => prevRows ++ [createInitialRowWith (numberToString now) text []]
  end.

Definition handleImportDocument (now : N) (text : jsstring) (s : State)
    : State :=
  with_rows s (importRows now text (rows s)).

(** *** Loading *)

(** What the remote store answers to the load: the identity check fails,
    the query fails, or the documents arrive (already mapped by
    [mapSupabaseToSavedDocument]). *)
Inductive LoadOutcome :=
| LoadAuthFailed (message : jsstring)
| LoadQueryFailed (message : jsstring)
| LoadOk (docs : list SavedDocument).

Definition loadFromSupabase (now : N) (o : LoadOutcome) (s : State) : State :=
  match o with
  | LoadOk docs =>
      {| operatingMode := Supabase; appError := None;
         rows := [createInitialRow now]; savedDocuments := docs;
         currentDocumentId := None; isAiInitialized := isAiInitialized s |}
  | LoadAuthFailed message | LoadQueryFailed message =>
      {| operatingMode := ModeError;
         appError := Some (lit "Failed to load data from Supabase: " ++ message);
         rows := rows s; savedDocuments := savedDocuments s;
         currentDocumentId := currentDocumentId s;
         isAiInitialized := isAiInitialized s |}
  end.

(** [!localRows[0].input && !localRows[0].output] on a one-row list, or an
    empty list. *)
Definition isBlankDraft (localRows : list DocumentRow) : bool :=
  match localRows with
  | [] => true
  | [r] => negb (truthy (input r)) && negb (truthy (output r))
  | _ => false
  end.

(** [loadFromLocalStorage()]: [t1] is the clock read for the default of
    the rows key, [t2] the one read when the rows are reset. *)
Definition loadFromLocalStorage (t1 t2 : N) (ls : LocalStorage) (s : State)
    : State * LocalStorage :=
  let localRows :=
    getItem (readThrows ls) (rowsItem ls) [createInitialRow t1] in
  let localSavedDocs := getItem (readThrows ls) (docsItem ls) [] in
  let localCurrentId := getItem (readThrows ls) (idItem ls) None in
  let loaded (r : list DocumentRow) (c : option jsstring) :=
    {| operatingMode := Local; appError := None; rows := r;
       savedDocuments := localSavedDocs; currentDocumentId := c;
       isAiInitialized := isAiInitialized s |} in
  if idTruthy localCurrentId then
    match find (fun d => idEq (Some (doc_id d)) localCurrentId)
               localSavedDocs with
    | Some currentDoc => (loaded (doc_rows currentDoc) localCurrentId, ls)
    | None => (loaded [createInitialRow t2] None, setId ls None)
    end
  else if isBlankDraft localRows
  then (loaded [createInitialRow t2] localCurrentId, ls)
  else (loaded localRows localCurrentId, ls).

(** What [useSupabase] reports. *)
Record Hook := {
  supabase : bool;             (* a client is present *)
  supabaseError : option jsstring;
  supabaseLoading : bool;
  supabaseInitialized : bool
}.

(** The mode-deciding effect. *)
Definition initialize (t1 t2 : N) (h : Hook) (o : LoadOutcome)
    (ls : LocalStorage) (s : State) : State * LocalStorage :=
  if supabaseLoading h then (with_mode s Loading, ls)
  else if supabase h && supabaseInitialized h
  then (loadFromSupabase t1 o (with_mode s Loading), ls)
  else loadFromLocalStorage t1 t2 ls s.

(** [saveStateToLocalStorage] behind its effect: it runs in local mode
    only. *)
Definition saveStateToLocalStorage (s : State) (ls : LocalStorage)
    : LocalStorage :=
  setId (setDocs (setRows ls (rows s)) (savedDocuments s))
        (currentDocumentId s).

Definition persistEffect (s : State) (ls : LocalStorage) : LocalStorage :=
  match operatingMode s with
  | Local => saveStateToLocalStorage s ls
  | _ => ls
  end.

(** *** Documents *)

(** Stable sort by [updatedAt], newest first: the comparator of
    [updatedDocs.sort]. *)
Fixpoint insertDoc (d : SavedDocument) (l : list SavedDocument)
    : list SavedDocument :=
  match l with
  | [] => [d]
  | e :: rest =>
      if (updatedAt e <? updatedAt d)%Z then d :: l
      else e :: insertDoc d rest
  end.

Definition sortDocs (l : list SavedDocument) : list SavedDocument :=
  fold_left (fun acc d => insertDoc d acc) l [].

(** Newest first. *)
Fixpoint sortedDesc (l : list SavedDocument) : Prop :=
  match l with
  | [] => True
  | d :: rest =>
      Forall (fun e => (updatedAt e <= updatedAt d)%Z) rest /\ sortedDesc rest
  end.

Fixpoint findIndexFrom (i : jsstring) (k : nat) (docs : list SavedDocument)
    : option nat :=
  match docs with
  | [] => None
  | d :: rest => if streq (doc_id d) i then Some k
                 else findIndexFrom i (S k) rest
  end.

Fixpoint replaceAt {A} (k : nat) (f : A -> A) (l : list A) : list A :=
  match l, k with
  | [], _ => []
  | x :: rest, O => f x :: rest
  | x :: rest, S k' => x :: replaceAt k' f rest
  end.

(** The updater handed to [setSavedDocuments]: the new index, and the id
    it assigns to [newDocId] when it creates a document.  [now] is the
    time of the save, [idClock] the clock read for the id of a new
    document. *)
Definition savedDocumentsUpdater (now : Z) (idClock : N)
    (trimmedTitle : jsstring) (s : State) (prevDocs : list SavedDocument)
    : list SavedDocument * option jsstring :=
  let existingDocIndex :=
    match currentDocumentId s with
    | Some c => if truthy c then findIndexFrom c 0 prevDocs else None
    | None => None
    end in
  match existingDocIndex with
  | Some k =>
      (sortDocs
         (replaceAt k (fun d => {| doc_id := doc_id d;
                                   doc_title := trimmedTitle;
                                   createdAt := createdAt d;
                                   updatedAt := now;
                                   doc_rows := rows s |}) prevDocs),
       None)
  | None =>
      let newDoc := {| doc_id := numberToString idClock;
                       doc_title := trimmedTitle; createdAt := now;
                       updatedAt := now; doc_rows := rows s |} in
      (sortDocs (prevDocs ++ [newDoc]), Some (doc_id newDoc))
  end.

(** The local branch of [handleSaveDocument].  React runs the updater
    inside the call of [setSavedDocuments] only when no update of the
    component is pending; otherwise it runs it at the next render, after
    the handler has compared [newDocId] with [currentDocumentId].
    [inCall] says which: when it is false the assignment to [newDocId]
    comes too late and the variable still holds [currentDocumentId]. *)
Definition saveLocal (inCall : bool) (now : Z) (idClock : N)
    (trimmedTitle : jsstring) (s : State) : State :=
  let (updatedDocs, assigned) :=
    savedDocumentsUpdater now idClock trimmedTitle s (savedDocuments s) in
  let newDocId :=
    match assigned with
    | Some n => if inCall then Some n else currentDocumentId s
    | None => currentDocumentId s
    end in
  let s' := with_docs s updatedDocs in
  if idEq newDocId (currentDocumentId s) then s'
  else with_current s' newDocId.

(** What the remote store answers to a save. *)
Inductive SaveOutcome :=
| SaveAuthFailed (message : jsstring)
| SaveWriteFailed (message : jsstring)
| SaveOk (savedId : jsstring) (reload : LoadOutcome).

Definition handleSaveDocument (inCall : bool) (now : Z) (idClock : N)
    (o : SaveOutcome)
    (h : Hook) (title : jsstring) (s : State) : State :=
  let trimmedTitle := trim title in
  if negb (truthy trimmedTitle) then s
  else
    match operatingMode s with
    | Supabase =>
        if supabase h then
          match o with
          | SaveAuthFailed message | SaveWriteFailed message =>
              with_mode (with_error s (Some message)) ModeError
          | SaveOk savedId reload =>
              let s1 := with_mode s Loading in
              let s2 := if idTruthy (currentDocumentId s) then s1
                        else with_current s1 (Some savedId) in
              loadFromSupabase idClock reload s2
          end
        else
          with_error s (Some (lit
            "Cannot save document. Application is not in a valid state."))
    | Local => saveLocal inCall now idClock trimmedTitle s
    | _ =>
        with_error s (Some (lit
          "Cannot save document. Application is not in a valid state."))
    end.

Definition handleOpenDocument (document : SavedDocument) (s : State) : State :=
  with_current (with_rows s (doc_rows document)) (Some (doc_id document)).

Definition handleNewDocument (now : N) (s : State) : State :=
  with_rows (with_current s None) [createInitialRow now].

(** What the remote store answers to a delete. *)
Inductive DeleteOutcome :=
| DeleteFailed (message : jsstring)
| DeleteOk (reload : LoadOutcome).

Definition closeIfOpen (now : N) (i : jsstring) (s : State) : State :=
  if idEq (currentDocumentId s) (Some i)
  then with_rows (with_current s None) [createInitialRow now]
  else s.

Definition handleDeleteDocument (now : N) (o : DeleteOutcome) (h : Hook)
    (i : jsstring) (s : State) : State :=
  let invalid :=
    with_error s (Some (lit
      "Cannot delete document. Application is not in a valid state.")) in
  match operatingMode s with
  | Supabase =>
      if supabase h then
        match o with
        | DeleteFailed message =>
            with_mode (with_error s (Some message)) ModeError
        | DeleteOk reload =>
            loadFromSupabase now reload
              (closeIfOpen now i (with_mode s Loading))
        end
      else invalid
  | Local =>
      closeIfOpen now i
        (with_docs s (filter (fun d => negb (streq (doc_id d) i))
                             (savedDocuments s)))
  | _ => invalid
  end.

End App.
Import App.

(** ** The session as a transition system

    The operations available once the mode has been decided, each with
    the answers of the collaborators it reaches. *)

Module Session.

Inductive Op :=
| AddRow (now : N)
| DeleteRow (i : jsstring)
| MapRow (i : jsstring) (f : DocumentRow -> DocumentRow)
| UpdateAllRows (updated : list DocumentRow)
| GenerateText (i : jsstring) (ready : bool) (resp : ApiResponse)
| ImportDocument (now : N) (text : jsstring)
| SaveDocument (inCall : bool) (now : Z) (idClock : N) (o : SaveOutcome)
               (h : Hook)
               (title : jsstring)
| OpenDocument (document : SavedDocument)
| DeleteDocument (now : N) (o : DeleteOutcome) (h : Hook) (i : jsstring)
| NewDocument (now : N).

(** [MapRow] stands for the handlers that rewrite the row with a given id
    and nothing else: title, input, prompt, output, the toggles and the
    categorized notes. *)
Definition step (s : State) (op : Op) : State :=
  match op with
  | AddRow now => handleAddRow now s
  | DeleteRow i => handleDeleteRow i s
  | MapRow i f => with_rows s (mapRow i f (rows s))
  | UpdateAllRows updated => handleUpdateAllRows updated s
  | GenerateText i ready resp => handleGenerateText i ready resp s
  | ImportDocument now text => handleImportDocument now text s
  | SaveDocument inCall now idClock o h t =>
      handleSaveDocument inCall now idClock o h t s
  | OpenDocument d => handleOpenDocument d s
  | DeleteDocument now o h i => handleDeleteDocument now o h i s
  | NewDocument now => handleNewDocument now s
  end.

Definition run (ops : list Op) (s : State) : State := fold_left step ops s.

(** The modes visited along a run, the starting one included. *)
Fixpoint modes (ops : list Op) (s : State) : list OperatingMode :=
  match ops with
  | [] => [operatingMode s]
  | op :: rest => operatingMode s :: modes rest (step s op)
  end.

(** The state the component starts in. *)
Definition initialState (now : N) : State :=
  {| operatingMode := Loading; appError := None;
     rows := [createInitialRow now]; savedDocuments := [];
     currentDocumentId := None; isAiInitialized := false |}.

Definition settled (m : OperatingMode) : bool :=
  match m with Local | ModeError => true | _ => false end.

Definition loadFails (o : LoadOutcome) : bool :=
  match o with LoadOk _ => false | _ => true end.

(** The operation reaches the remote store and the store refuses a
    request of it. *)
Definition remoteFailure (op : Op) : bool :=
  match op with
  | SaveDocument _ _ _ o h t =>
      truthy (trim t) && supabase h
      && match o with SaveOk _ reload => loadFails reload | _ => true end
  | DeleteDocument _ o h _ =>
      supabase h
      && match o with DeleteOk reload => loadFails reload | _ => true end
  | _ => false
  end.

End Session.
Import Session.

(** ** Sample documents *)

Module Samples.

Definition section (i t o : string) : DocumentRow :=
  set_title_output (createInitialRowWith (lit i) [] (lit t)) (lit t) (lit o).

Definition rowA := section "1" "A" "<p>x</p>".
Definition rowB := section "2" "B" "<p>y</p>".
Definition rowC := section "3" "C" "<p>z</p>".


(** Two sections merged, the body of the second one edited. *)
Definition bodyEdited : jsstring :=
  lit "<h2>A</h2>" ++ newline ++ lit "<p>x</p>" ++ separator
    ++ lit "<h2>B</h2>" ++ newline ++ lit "<p>y <b>more</b></p>".

(** Text and a paragraph typed above the first heading, after a blank
    line and a rule. *)
Definition leadingNodes : list Node := [Dom.textNode newline;
                                        Dom.elementNode (lit "hr") (lit "<hr>") []].
Definition introNode : Node := Dom.textNode (lit "intro ").
Definition introRest : list Node :=
  [Dom.elementNode (lit "hr") (lit "<hr>") [];
   Dom.elementNode (lit "p") (lit "<p>a</p>") (lit "a");
   Dom.textNode newline].
Definition afterIntro : list Node :=
  [Dom.elementNode (lit "h2") (lit "<h2>T</h2>") (lit "T");
   Dom.elementNode (lit "p") (lit "<p>b</p>") (lit "b")].


Definition segmentA : Segment :=
  (Dom.elementNode (lit "h2") (lit "<h2>A</h2>") (lit "A"),
   [Dom.textNode newline;
    Dom.elementNode (lit "p") (lit "<p>x</p>") (lit "x");
    Dom.textNode newline;
    Dom.elementNode (lit "hr")
      (lit "<hr class=" ++ [34%N] ++ lit "my-4 border-gray-700" ++ [34%N]
           ++ lit ">") [];
    Dom.textNode newline]).

Definition segmentB : Segment :=
  (Dom.elementNode (lit "h2") (lit "<h2>B</h2>") (lit "B"),
   [Dom.textNode newline;
    Dom.elementNode (lit "p") (lit "<p>y</p>") (lit "y")]).

(** The one-section document the application starts with, after the user
    has typed a draft into it. *)
Definition draftRow : DocumentRow :=
  set_input (createInitialRow 1700000000000) (lit "draft").

Definition localDraft : State :=
  {| operatingMode := Local; appError := None; rows := [draftRow];
     savedDocuments := []; currentDocumentId := None;
     isAiInitialized := true |}.

Definition anyHook : Hook :=
  {| supabase := false; supabaseError := None; supabaseLoading := false;
     supabaseInitialized := false |}.

Definition anySave : SaveOutcome := SaveAuthFailed [].

(** A stored document without sections, as a remote row holds by
    default. *)
Definition emptyDoc : SavedDocument :=
  {| doc_id := lit "d0"; doc_title := lit "Empty"; createdAt := 0;
     updatedAt := 0; doc_rows := [] |}.

Definition savedA : SavedDocument :=
  {| doc_id := lit "d1"; doc_title := lit "Kept"; createdAt := 0;
     updatedAt := 0; doc_rows := [rowA; rowB] |}.

(** A store holding a saved session. *)
Definition goodStore : LocalStorage :=
  {| readThrows := false; writeThrows := false;
     rowsItem := Some (Json [rowC]);
     docsItem := Some (Json [savedA]);
     idItem := Some (Json (Some (lit "d1"))) |}.

(** The same store when every access throws. *)
Definition brokenStore : LocalStorage :=
  {| readThrows := true; writeThrows := true;
     rowsItem := rowsItem goodStore; docsItem := docsItem goodStore;
     idItem := idItem goodStore |}.

Definition failedLoad : LoadOutcome := LoadQueryFailed (lit "offline").

Definition remoteSession : State :=
  {| operatingMode := Supabase; appError := None; rows := [rowA];
     savedDocuments := [savedA]; currentDocumentId := Some (lit "d1");
     isAiInitialized := true |}.

Definition clientHook : Hook :=
  {| supabase := true; supabaseError := None; supabaseLoading := false;
     supabaseInitialized := true |}.

Definition failingSave : Op :=
  SaveDocument true 10 11 (SaveWriteFailed (lit "timeout")) clientHook (lit "Doc").

(** A session that has fallen back to local storage and goes on. *)
Definition localOps : list Op :=
  [ AddRow 20;
    SaveDocument false 21 22 (SaveOk (lit "r1") (LoadOk [savedA])) clientHook
                 (lit "Doc");
    OpenDocument savedA;
    DeleteDocument 23 (DeleteOk (LoadOk [])) clientHook (lit "d1");
    NewDocument 24 ].

(** A section whose output holds a level-2 heading of its own. *)
Definition headedRow : DocumentRow :=
  section "1" "A" "<h2>Sub</h2><p>x</p>".

End Samples.

(** ** Further row handlers ([App.tsx]) *)

Module RowEdits.

Inductive InputCategory := Facts | Concepts | Opinions | Examples | Other.

(** [row.sectionInputs[category]] *)
Definition notesOf (si : SectionInputs) (c : InputCategory) : list jsstring :=
  match c with
  | Facts => facts si
  | Concepts => concepts si
  | Opinions => opinions si
  | Examples => examples si
  | Other => other si
  end.

(** [{ ...row.sectionInputs, [category]: v }] *)
Definition withNotes (si : SectionInputs) (c : InputCategory)
    (v : list jsstring) : SectionInputs :=
  match c with
  | Facts => {| facts := v; concepts := concepts si; opinions := opinions si;
                examples := examples si; other := other si |}
  | Concepts => {| facts := facts si; concepts := v; opinions := opinions si;
                   examples := examples si; other := other si |}
  | Opinions => {| facts := facts si; concepts := concepts si; opinions := v;
                   examples := examples si; other := other si |}
  | Examples => {| facts := facts si; concepts := concepts si;
                   opinions := opinions si; examples := v; other := other si |}
  | Other => {| facts := facts si; concepts := concepts si;
                opinions := opinions si; examples := examples si; other := v |}
  end.

(** [row.expandedInputs[category]] *)
Definition expandedOf (e : ExpandedInputs) (c : InputCategory) : bool :=
  match c with
  | Facts => exp_facts e
  | Concepts => exp_concepts e
  | Opinions => exp_opinions e
  | Examples => exp_examples e
  | Other => exp_other e
  end.

Definition withExpanded (e : ExpandedInputs) (c : InputCategory) (v : bool)
    : ExpandedInputs :=
  match c with
  | Facts => {| exp_facts := v; exp_concepts := exp_concepts e;
                exp_opinions := exp_opinions e; exp_examples := exp_examples e;
                exp_other := exp_other e |}
  | Concepts => {| exp_facts := exp_facts e; exp_concepts := v;
                   exp_opinions := exp_opinions e;
                   exp_examples := exp_examples e; exp_other := exp_other e |}
  | Opinions => {| exp_facts := exp_facts e; exp_concepts := exp_concepts e;
                   exp_opinions := v; exp_examples := exp_examples e;
                   exp_other := exp_other e |}
  | Examples => {| exp_facts := exp_facts e; exp_concepts := exp_concepts e;
                   exp_opinions := exp_opinions e; exp_examples := v;
                   exp_other := exp_other e |}
  | Other => {| exp_facts := exp_facts e; exp_concepts := exp_concepts e;
                exp_opinions := exp_opinions e;
                exp_examples := exp_examples e; exp_other := v |}
  end.

Definition set_isExpanded (r : DocumentRow) (b : bool) : DocumentRow :=
  {| id := id r; title := title r; input := input r; aiPrompt := aiPrompt r;
     output := output r; isExpanded := b; isLoading := isLoading r;
     error := error r; sectionInputs := sectionInputs r;
     expandedInputs := expandedInputs r |}.

Definition set_sectionInputs (r : DocumentRow) (si : SectionInputs)
    : DocumentRow :=
  {| id := id r; title := title r; input := input r; aiPrompt := aiPrompt r;
     output := output r; isExpanded := isExpanded r; isLoading := isLoading r;
     error := error r; sectionInputs := si;
     expandedInputs := expandedInputs r |}.

Definition set_expandedInputs (r : DocumentRow) (e : ExpandedInputs)
    : DocumentRow :=
  {| id := id r; title := title r; input := input r; aiPrompt := aiPrompt r;
     output := output r; isExpanded := isExpanded r; isLoading := isLoading r;
     error := error r; sectionInputs := sectionInputs r;
     expandedInputs := e |}.

Definition set_aiPrompt (r : DocumentRow) (a : AiPrompt) : DocumentRow :=
  {| id := id r; title := title r; input := input r; aiPrompt := a;
     output := output r; isExpanded := isExpanded r; isLoading := isLoading r;
     error := error r; sectionInputs := sectionInputs r;
     expandedInputs := expandedInputs r |}.

(** The field of [aiPrompt] an edit names, with the value it carries. *)
Inductive PromptEdit :=
| EditWordCount (v : Z)
| EditTone (v : jsstring)
| EditPrompt (v : jsstring).

(** [{ ...row.aiPrompt, [field]: value }] *)
Definition withPrompt (a : AiPrompt) (e : PromptEdit) : AiPrompt :=
  match e with
  | EditWordCount v => {| wordCount := v; tone := tone a; prompt := prompt a |}
  | EditTone v => {| wordCount := wordCount a; tone := v; prompt := prompt a |}
  | EditPrompt v => {| wordCount := wordCount a; tone := tone a; prompt := v |}
  end.

Definition handleUpdatePrompt (i : jsstring) (e : PromptEdit) (s : State)
    : State :=
  with_rows s (mapRow i (fun r => set_aiPrompt r (withPrompt (aiPrompt r) e))
                      (rows s)).

Definition handleToggleExpand (i : jsstring) (s : State) : State :=
  with_rows s (mapRow i (fun r => set_isExpanded r (negb (isExpanded r)))
                      (rows s)).

Definition handleToggleInputExpand (i : jsstring) (c : InputCategory)
    (s : State) : State :=
  with_rows s
    (mapRow i (fun r => set_expandedInputs r
                          (withExpanded (expandedInputs r) c
                             (negb (expandedOf (expandedInputs r) c))))
            (rows s)).

(** [inputs.map((input, i) => i === index ? value : input)] *)
Definition replaceNote (index : nat) (value : jsstring) (l : list jsstring)
    : list jsstring :=
  mapi_from (fun inp k => if k =? index then value else inp) 0 l.

(** [inputs.filter((_, i) => i !== index)] *)
Fixpoint removeNoteFrom (k index : nat) (l : list jsstring) : list jsstring :=
  match l with
  | [] => []
  | x :: rest =>
      if k =? index then removeNoteFrom (S k) index rest
      else x :: removeNoteFrom (S k) index rest
  end.

Definition removeNote (index : nat) (l : list jsstring) : list jsstring :=
  removeNoteFrom 0 index l.

Definition editNotes (c : InputCategory)
    (f : list jsstring -> list jsstring) (r : DocumentRow) : DocumentRow :=
  set_sectionInputs r
    (withNotes (sectionInputs r) c (f (notesOf (sectionInputs r) c))).

Definition handleUpdateSectionInput (i : jsstring) (c : InputCategory)
    (index : nat) (value : jsstring) (s : State) : State :=
  with_rows s (mapRow i (editNotes c (replaceNote index value)) (rows s)).

Definition handleAddSectionInput (i : jsstring) (c : InputCategory)
    (s : State) : State :=
  with_rows s (mapRow i (editNotes c (fun l => l ++ [[]])) (rows s)).

Definition handleRemoveSectionInput (i : jsstring) (c : InputCategory)
    (index : nat) (s : State) : State :=
  with_rows s (mapRow i (editNotes c (removeNote index)) (rows s)).

(** The filter of [handleDeleteRow]. *)
Definition keepOthers (i : jsstring) (l : list DocumentRow)
    : list DocumentRow :=
  filter (fun row => negb (streq (id row) i)) l.

End RowEdits.
Import RowEdits.

(** ** The document manager ([DocumentManageModal.tsx]) *)

Module Manager.

(** [handleSave]: the title handed to [onSave], if it is called. *)
Definition handleSave (newTitle : jsstring) : option jsstring :=
  if truthy (trim newTitle) then Some (trim newTitle) else None.

(** [handleDelete(id)]: the new [showConfirmDelete] and the id handed to
    [onDelete], if it is called. *)
Definition handleDelete (showConfirmDelete : option jsstring) (i : jsstring)
    : option jsstring * option jsstring :=
  if idEq showConfirmDelete (Some i) then (None, Some i)
  else (Some i, None).

(** A series of clicks on delete buttons: the pending confirmation left
    and the deletions requested, in order. *)
Fixpoint clicks (pending : option jsstring) (ids : list jsstring)
    : option jsstring * list jsstring :=
  match ids with
  | [] => (pending, [])
  | i :: rest =>
      let (pending', deleted) := handleDelete pending i in
      let (final, more) := clicks pending' rest in
      (final, match deleted with Some d => d :: more | None => more end)
  end.

End Manager.

(** ** The generation request ([services/openai.ts]) *)

Module Prompt.

(** [import.meta.env]: the three variables the service reads. *)
Record Env := {
  VITE_OPENAI_API_KEY : option jsstring;
  VITE_OPENAI_API_URL : option jsstring;
  VITE_OPENAI_MODEL : option jsstring
}.

Definition present (v : option jsstring) : bool :=
  match v with Some x => truthy x | None => false end.

(** [initializeOpenAI()]: [inr] is the message of the error thrown, [inl]
    the model name stored beside the client. *)
Definition initializeOpenAI (env : Env) : jsstring + jsstring :=
  if negb (present (VITE_OPENAI_API_KEY env))
  then inr (lit "OpenAI API Key is missing")
  else if negb (present (VITE_OPENAI_API_URL env))
  then inr (lit "OpenAI API URL is missing")
  else match VITE_OPENAI_MODEL env with
       | Some ((_ :: _) as m) => inl m
       | _ => inr (lit "OpenAI Model is missing")
       end.

(** The effect of [App] that calls it: [isAiInitialized] and
    [aiInitializationError]. *)
Definition initEffect (env : Env) : bool * option jsstring :=
  match initializeOpenAI env with
  | inl _ => (true, None)
  | inr message => (false, Some message)
  end.

(** The keys of [row.sectionInputs] in the order [Object.entries] lists
    them for a row built by [createInitialRow] and edited by the
    handlers, which spread the object and so keep the order. *)
Definition categories : list (jsstring * InputCategory) :=
  [ (lit "facts", Facts); (lit "concepts", Concepts);
    (lit "opinions", Opinions); (lit "examples", Examples);
    (lit "other", Other) ].

(** [c.toUpperCase()] on the letters the category names start with. *)
Definition toUpperCase (c : N) : N :=
  if ((97 <=? c) && (c <=? 122))%N then (c - 32)%N else c.

(** [category.charAt(0).toUpperCase() + category.slice(1)] *)
Definition capitalize (s : jsstring) : jsstring :=
  match s with
  | [] => []
  | c :: rest => toUpperCase c :: rest
  end.

Definition validInputs (inputs : list jsstring) : list jsstring :=
  filter (fun inp => truthy (trim inp)) inputs.

(** The text of one category: empty when it has no valid input. *)
Definition categoryText (name : jsstring) (inputs : list jsstring)
    : jsstring :=
  match validInputs inputs with
  | [] => []
  | valid =>
      capitalize name ++ lit ":" ++ newline
        ++ join newline (map (fun inp => lit "- " ++ inp) valid)
  end.

(** The [sectionInputs] text of [generateText]: the categories in the
    order of the object's keys, the empty ones dropped, blank lines
    between. *)
Definition sectionInputsText (si : SectionInputs) : jsstring :=
  join (newline ++ newline)
    (filter truthy
       (map (fun p => categoryText (fst p) (notesOf si (snd p)))
            categories)).

(** The user message of the request. *)
Definition userMessage (row : DocumentRow) : jsstring :=
  orElse (input row)
    (lit "Please generate appropriate content based on the instructions.").

End Prompt.

(** ** Counting the sections of a node list *)

Module Counting.

(** The nodes before the first level-2 heading. *)
Fixpoint beforeHeading (nodes : list Node) : list Node :=
  match nodes with
  | [] => []
  | n :: rest => if isH2 n then [] else n :: beforeHeading rest
  end.

(** Some node before the first heading is not a rule and has visible
    text. *)
Definition hasLeadingContent (nodes : list Node) : bool :=
  existsb (fun n => negb (isHR n) && hasVisibleText n) (beforeHeading nodes).

Definition headingCount (nodes : list Node) : nat :=
  List.length (filter isH2 nodes).

End Counting.
Import Counting.

(** * Properties *)

(** ** Strings *)

Section TrimFacts.

Lemma trimStart_noLead s : noLead (trimStart s).
Proof.
  induction s as [|c s IH]; simpl; [exact I|].
  destruct (isWhiteSpace c) eqn:E; [exact IH|exact E].
Qed.

Lemma trimStart_fixed s : noLead s -> trimStart s = s.
Proof.
  destruct s as [|c s]; simpl; [reflexivity|].
  intros ->. reflexivity.
Qed.

Lemma trimStart_app_stop l c m :
  isWhiteSpace c = false -> trimStart (l ++ c :: m) = trimStart l ++ c :: m.
Proof.
  intros Hc. induction l as [|x l IH]; simpl.
  - now rewrite Hc.
  - destruct (isWhiteSpace x); [exact IH|reflexivity].
Qed.

Lemma trimEnd_noLead s : noLead s -> noLead (trimEnd s).
Proof.
  destruct s as [|c s]; simpl; [intros _; exact I|].
  intros Hc. unfold trimEnd. simpl rev.
  rewrite (trimStart_app_stop (rev s) c [] Hc), rev_app_distr. simpl. exact Hc.
Qed.

Lemma trimEnd_idem s : trimEnd (trimEnd s) = trimEnd s.
Proof.
  unfold trimEnd. rewrite rev_involutive.
  now rewrite (trimStart_fixed _ (trimStart_noLead (rev s))).
Qed.

Lemma trim_idem s : trim (trim s) = trim s.
Proof.
  unfold trim at 1.
  rewrite (trimStart_fixed (trim s)).
  - unfold trim. apply trimEnd_idem.
  - unfold trim. apply trimEnd_noLead, trimStart_noLead.
Qed.

Lemma trimStart_nil_iff s : trimStart s = [] <-> forallb isWhiteSpace s = true.
Proof.
  induction s as [|c s IH]; simpl; [tauto|].
  destruct (isWhiteSpace c); simpl; [exact IH|].
  split; discriminate.
Qed.

Lemma forallb_rev {A} (f : A -> bool) l : forallb f (rev l) = forallb f l.
Proof.
  induction l as [|x l IH]; [reflexivity|].
  simpl. rewrite forallb_app, IH. simpl. rewrite andb_true_r.
  apply andb_comm.
Qed.

End TrimFacts.

Lemma streq_refl a : streq a a = true.
Proof. unfold streq. destruct (jsstring_eq_dec a a); [reflexivity|contradiction]. Qed.

Lemma streq_true a b : streq a b = true -> a = b.
Proof. unfold streq. destruct (jsstring_eq_dec a b); [auto|discriminate]. Qed.

Lemma streq_false a b : streq a b = false -> a <> b.
Proof. unfold streq. destruct (jsstring_eq_dec a b); [discriminate|auto]. Qed.

Lemma streq_neq a b : a <> b -> streq a b = false.
Proof. unfold streq. destruct (jsstring_eq_dec a b); [contradiction|auto]. Qed.

(** ** The node scan *)

Section ScanFacts.

Lemma newSectionsData_current cl c :
  newSectionsData {| closed := cl; currentSection := Some c |} = cl ++ [c].
Proof. reflexivity. Qed.

(** Once a section is open, the sections closed before it ride along. *)
Lemma scanNode_open cl c n :
  exists cl' c',
    scanNode {| closed := cl; currentSection := Some c |} n
    = {| closed := cl'; currentSection := Some c' |}
    /\ forall pre,
        scanNode {| closed := pre ++ cl; currentSection := Some c |} n
        = {| closed := pre ++ cl'; currentSection := Some c' |}.
Proof.
  unfold scanNode. simpl. destruct (isH2 n).
  - eexists _, _. split; [reflexivity|]. intros pre.
    now rewrite !newSectionsData_current, app_assoc.
  - destruct (negb (isHR n)); eexists _, _; split; try reflexivity;
      intros pre; reflexivity.
Qed.

Lemma scan_prefix nodes : forall pre cl c,
  fold_left scanNode nodes {| closed := pre ++ cl; currentSection := Some c |}
  = {| closed :=
         pre ++ closed (fold_left scanNode nodes
                          {| closed := cl; currentSection := Some c |});
       currentSection :=
         currentSection (fold_left scanNode nodes
                           {| closed := cl; currentSection := Some c |}) |}.
Proof.
  induction nodes as [|n nodes IH]; intros pre cl c; simpl; [reflexivity|].
  destruct (scanNode_open cl c n) as (cl' & c' & E & Epre).
  rewrite E, Epre. apply IH.
Qed.

Lemma scan_content content : forall cl c,
  Forall (fun n => isH2 n = false) content ->
  fold_left scanNode content {| closed := cl; currentSection := Some c |}
  = {| closed := cl;
       currentSection := Some (appendMarkup c (sectionBody content)) |}.
Proof.
  induction content as [|n content IH]; intros cl c H; simpl.
  - unfold appendMarkup, sectionBody. simpl. rewrite app_nil_r.
    now destruct c.
  - inversion H as [|? ? Hn Hrest]; subst.
    unfold scanNode at 2. rewrite Hn. simpl.
    unfold sectionBody. simpl.
    destruct (isHR n); simpl.
    + now apply IH.
    + rewrite (IH _ _ Hrest). unfold appendMarkup, sectionBody. simpl.
      now rewrite app_assoc.
Qed.

(** A heading closes what is open and starts a section of its own. *)
Lemma scan_heading h nodes st :
  isH2 h = true ->
  newSectionsData (fold_left scanNode (h :: nodes) st)
  = newSectionsData st
    ++ newSectionsData (fold_left scanNode (h :: nodes) scanStart).
Proof.
  intros Hh. simpl. unfold scanNode at 2 4. rewrite Hh.
  change (newSectionsData scanStart) with (@nil SectionData).
  rewrite <- (app_nil_r (newSectionsData st)) at 1.
  rewrite scan_prefix. unfold newSectionsData at 1. simpl.
  now rewrite <- app_assoc.
Qed.

Lemma mapi_from_length {A B} (f : A -> nat -> B) l : forall i,
  List.length (mapi_from f i l) = List.length l.
Proof. induction l; intros i; simpl; [|rewrite IHl]; reflexivity. Qed.

Lemma mapi_from_nth {A B} (f : A -> nat -> B) l : forall i k x,
  nth_error l k = Some x ->
  nth_error (mapi_from f i l) k = Some (f x (i + k)).
Proof.
  induction l as [|y l IH]; intros i k x H.
  - now destruct k.
  - destruct k as [|k]; simpl in *.
    + inversion H; subst. now rewrite Nat.add_0_r.
    + rewrite (IH (S i) k x H). f_equal. f_equal. lia.
Qed.

End ScanFacts.

(** ** Continuous-view sync *)

(** The scenario of the specification: two sections separated by a rule. *)
Example split_two_sections :
  split Dom.wrapperChildNodes
        (lit "<h2>A</h2><p>x</p><hr><h2>B</h2><p>y</p>") 2
  = inl [ {| sd_title := lit "A"; outputHTML := lit "<p>x</p>" |};
          {| sd_title := lit "B"; outputHTML := lit "<p>y</p>" |} ].
Proof. vm_compute. reflexivity. Qed.



(** C6: on a successful sync the row at position [i] takes the derived
    title and body at position [i]; when both already equal the row's
    own, the original object is returned; every other field is the
    original row's. *)
Theorem sync_updates_by_position
    (parse : jsstring -> option (list Node)) (content : jsstring)
    (rows : list DocumentRow) (derived : list SectionData) :
  split parse content (List.length rows) = inl derived ->
  exists updated,
    handleSyncContinuousChanges parse content rows
      = (Some updated, {| st_type := Success;
                          st_message := lit "Changes synced successfully!" |})
    /\ List.length updated = List.length rows
    /\ forall i row, nth_error rows i = Some row ->
        exists d u,
          nth_error derived i = Some d
          /\ nth_error updated i = Some u
          /\ title (rowOf u) = sd_title d
          /\ output (rowOf u) = outputHTML d
          /\ (title row = sd_title d -> output row = outputHTML d ->
              u = SameObject row)
          /\ id (rowOf u) = id row
          /\ input (rowOf u) = input row
          /\ aiPrompt (rowOf u) = aiPrompt row
          /\ isExpanded (rowOf u) = isExpanded row
          /\ isLoading (rowOf u) = isLoading row
          /\ error (rowOf u) = error row
          /\ sectionInputs (rowOf u) = sectionInputs row
          /\ expandedInputs (rowOf u) = expandedInputs row.
Proof.
  intros Hsplit.
  assert (Hlen : List.length derived = List.length rows).
  { unfold split in Hsplit.
    destruct (parse (wrap content)) as [nodes|]; [|discriminate].
    cbv zeta in Hsplit.
    destruct (Nat.eqb_spec (List.length (deriveSections nodes))
                           (List.length rows)) as [E|_];
      simpl in Hsplit; [|discriminate].
    inversion Hsplit; subst. exact E. }
  exists (updatedRows derived rows).
  unfold handleSyncContinuousChanges. rewrite Hsplit.
  split; [reflexivity|].
  split; [apply mapi_from_length|].
  intros i row Hrow.
  assert (Hi : i < List.length derived).
  { rewrite Hlen. apply nth_error_Some. congruence. }
  destruct (nth_error derived i) as [d|] eqn:Hd;
    [|apply nth_error_Some in Hi; contradiction].
  exists d, (updateRow derived row i).
  split; [reflexivity|].
  split; [unfold updatedRows; now rewrite (mapi_from_nth _ _ 0 _ Hrow)|].
  unfold updateRow. rewrite Hd. unfold strneq, streq.
  destruct (jsstring_eq_dec (title row) (sd_title d)) as [Et|Et];
    destruct (jsstring_eq_dec (output row) (outputHTML d)) as [Eo|Eo];
    simpl; repeat split; auto; intros; congruence.
Qed.

Lemma sync_updates_by_position_witness :
  exists updated,
    handleSyncContinuousChanges Dom.wrapperChildNodes Samples.bodyEdited
                                [Samples.rowA; Samples.rowB]
      = (Some updated, {| st_type := Success;
                          st_message := lit "Changes synced successfully!" |})
    /\ nth_error updated 0 = Some (SameObject Samples.rowA)
    /\ nth_error updated 1
       = Some (NewObject (set_title_output Samples.rowB (lit "B")
                            (lit "<p>y <b>more</b></p>"))).
Proof.
  destruct (@sync_updates_by_position Dom.wrapperChildNodes
              Samples.bodyEdited [Samples.rowA; Samples.rowB]
              [ {| sd_title := lit "A"; outputHTML := lit "<p>x</p>" |};
                {| sd_title := lit "B";
                   outputHTML := lit "<p>y <b>more</b></p>" |} ])
    as (updated & Hsync & _ & _).
  - vm_compute. reflexivity.
  - exists updated. split; [exact Hsync|].
    vm_compute in Hsync. inversion Hsync; subst.
    split; reflexivity.
Defined.

Lemma scan_skipped skipped :
  Forall (fun m => isH2 m = false
                   /\ (isHR m = true \/ hasVisibleText m = false)) skipped ->
  fold_left scanNode skipped scanStart = scanStart.
Proof.
  induction 1 as [|m l (Hh & Hs) _ IH]; simpl; [reflexivity|].
  unfold scanNode at 2. rewrite Hh. simpl.
  destruct Hs as [-> | ->]; simpl; [exact IH|].
  rewrite andb_false_r. exact IH.
Qed.

Lemma scan_ignores_rules nodes : forall st,
  fold_left scanNode (filter (fun m => negb (isHR m)) nodes) st
  = fold_left scanNode nodes st.
Proof.
  induction nodes as [|m nodes IH]; intros st; simpl; [reflexivity|].
  destruct (isHR m) eqn:Hr; simpl; [|apply IH].
  rewrite IH. f_equal. unfold scanNode. rewrite Hr.
  assert (Hh : isH2 m = false).
  { unfold isHR, isH2, streq in *.
    destruct (jsstring_eq_dec (nodeName m) (lit "HR")) as [E|]; [|discriminate].
    rewrite E. reflexivity. }
  rewrite Hh. simpl. now destruct (currentSection st).
Qed.

(** C7: content met before any level-2 heading opens a first section
    titled "Untitled Section" and is kept in its body; rules add nothing
    to any section; every derived body is trimmed. *)
Theorem content_before_heading_is_kept
    (skipped : list Node) (n : Node) (content rest : list Node) :
  Forall (fun m => isH2 m = false
                   /\ (isHR m = true \/ hasVisibleText m = false)) skipped ->
  isH2 n = false -> isHR n = false -> hasVisibleText n = true ->
  Forall (fun m => isH2 m = false) content ->
  match rest with [] => True | h :: _ => isH2 h = true end ->
  deriveSections (skipped ++ n :: content ++ rest)
    = {| sd_title := untitled;
         outputHTML := trim (sectionBody (n :: content)) |}
      :: deriveSections rest
  /\ (forall nodes,
        deriveSections (filter (fun m => negb (isHR m)) nodes)
        = deriveSections nodes)
  /\ (forall nodes s,
        In s (deriveSections nodes) -> trim (outputHTML s) = outputHTML s).
Proof.
  intros Hskip Hh Hr Hv Hcontent Hrest.
  split; [|split].
  - unfold deriveSections, scanNodes.
    rewrite fold_left_app, (scan_skipped Hskip). simpl fold_left.
    assert (E : scanNode scanStart n
                = {| closed := [];
                     currentSection :=
                       Some (appendMarkup {| sd_title := untitled;
                                             outputHTML := [] |}
                                          (nodeMarkup n)) |}).
    { unfold scanNode. rewrite Hh, Hr, Hv. reflexivity. }
    rewrite E, fold_left_app, (scan_content _ _ Hcontent).
    assert (B : appendMarkup
                  (appendMarkup {| sd_title := untitled; outputHTML := [] |}
                                (nodeMarkup n)) (sectionBody content)
                = {| sd_title := untitled;
                     outputHTML := sectionBody (n :: content) |}).
    { unfold appendMarkup, sectionBody. simpl. now rewrite Hr. }
    rewrite B. destruct rest as [|h t]; [reflexivity|].
    now rewrite (@scan_heading h t _ Hrest).
  - intros nodes. unfold deriveSections, scanNodes.
    now rewrite scan_ignores_rules.
  - intros nodes s Hin. unfold deriveSections in Hin.
    apply in_map_iff in Hin. destruct Hin as (x & <- & _).
    apply trim_idem.
Qed.

Lemma content_before_heading_is_kept_witness :
  deriveSections (Samples.leadingNodes ++ Samples.introNode
                    :: Samples.introRest ++ Samples.afterIntro)
  = [ {| sd_title := lit "Untitled Section";
         outputHTML := lit "intro <p>a</p>" |};
      {| sd_title := lit "T"; outputHTML := lit "<p>b</p>" |} ].
Proof.
  destruct (@content_before_heading_is_kept Samples.leadingNodes
              Samples.introNode Samples.introRest Samples.afterIntro)
    as (H & _).
  - constructor; [split; [reflexivity|right; reflexivity]|].
    constructor; [split; [reflexivity|left; reflexivity]|constructor].
  - reflexivity.
  - reflexivity.
  - reflexivity.
  - repeat constructor.
  - reflexivity.
  - rewrite H. vm_compute. reflexivity.
Defined.




(** ** The merged markup, read back *)

Section LexerFacts.






















End LexerFacts.

Section MergedDocument.





















End MergedDocument.

Section PlainMarkup.















End PlainMarkup.

Section RoundTrip.












End RoundTrip.



(** A level-2 heading inside an output is a section boundary for the
    split: the count check then rejects the merged markup. *)
Lemma heading_in_output_breaks_round_trip :
  plainRow Samples.headedRow
  /\ ~ leftInverse Dom.wrapperChildNodes [Samples.headedRow].
Proof.
  split; [split; [discriminate|split; reflexivity]|].
  intros (derived & Hsplit & _). vm_compute in Hsplit. discriminate.
Qed.


(** ** Rows *)



(** [!s.trim()] holds exactly of the strings made of white space. *)
Lemma blank_iff s :
  negb (truthy (trim s)) = forallb isWhiteSpace s.
Proof.
  destruct (forallb isWhiteSpace s) eqn:E.
  - apply trimStart_nil_iff in E. unfold trim. rewrite E. reflexivity.
  - destruct (trim s) as [|c t] eqn:T; [|reflexivity]. exfalso.
    unfold trim, trimEnd in T.
    apply (f_equal (@rev N)) in T. rewrite rev_involutive in T. simpl in T.
    apply trimStart_nil_iff in T. rewrite forallb_rev in T.
    pose proof (trimStart_noLead s) as L.
    destruct (trimStart s) as [|x r] eqn:S.
    + apply trimStart_nil_iff in S. congruence.
    + simpl in L, T. rewrite L in T. discriminate.
Qed.

Lemma mapi_from_same {A} (f : A -> nat -> A) l : forall i,
  (forall x k, k < List.length l -> f x (i + k) = x) ->
  mapi_from f i l = l.
Proof.
  induction l as [|y l IH]; intros i H; simpl; [reflexivity|].
  rewrite <- (Nat.add_0_r i) at 1. rewrite H by (simpl; lia).
  f_equal. apply IH. intros x k Hk.
  replace (S i + k) with (i + S k) by lia. apply H. simpl. lia.
Qed.

Lemma mapi_from_app {A B} (f : A -> nat -> B) l m : forall i,
  mapi_from f i (l ++ m)
  = mapi_from f i l ++ mapi_from f (i + List.length l) m.
Proof.
  induction l as [|y l IH]; intros i; simpl.
  - now rewrite Nat.add_0_r.
  - rewrite IH. do 3 f_equal. lia.
Qed.

Lemma importRows_result
    (now : N) (text : jsstring) (front : list DocumentRow)
    (lastRow : DocumentRow) :
  importRows now text (front ++ [lastRow])
    = (if forallb isWhiteSpace (input lastRow)
       then front ++ [set_input lastRow text]
       else (front ++ [lastRow])
              ++ [createInitialRowWith (numberToString now) text []])
  /\ importRows now text []
     = [createInitialRowWith (numberToString now) text []].
Proof.
  split; [|reflexivity].
  unfold importRows. rewrite map_app. simpl map at 2. rewrite last_last.
  rewrite blank_iff.
  destruct (forallb isWhiteSpace (input lastRow)); [|reflexivity].
  rewrite mapi_from_app. simpl. rewrite length_app. simpl.
  f_equal.
  - apply mapi_from_same. intros x k Hk.
    destruct (Z.eqb_spec (Z.of_nat (0 + k))
                (Z.of_nat (List.length front + 1) - 1)); [lia|reflexivity].
  - destruct (Z.eqb_spec (Z.of_nat (List.length front))
                (Z.of_nat (List.length front + 1) - 1)); [reflexivity|lia].
Qed.

(** C10: importing a text into the document: when the input of the last
    section is empty or white space, the rows after the import are the
    same rows with the last one's input set to the imported text and
    nothing else of it changed; otherwise, and on an empty list, they
    are the unchanged rows followed by one new section whose input is
    the imported text; mode, index and open document are untouched. *)
Theorem import_fills_last_or_appends
    (now : N) (text : jsstring) (s : State) :
  let s' := handleImportDocument now text s in
  (operatingMode s' = operatingMode s
   /\ savedDocuments s' = savedDocuments s
   /\ currentDocumentId s' = currentDocumentId s)
  /\ (rows s = [] ->
      exists added,
        rows s' = [added] /\ input added = text
        /\ id added = numberToString now /\ output added = [])
  /\ (forall front lastRow,
      rows s = front ++ [lastRow] ->
      if forallb isWhiteSpace (input lastRow)
      then exists filled,
             rows s' = front ++ [filled]
             /\ input filled = text
             /\ id filled = id lastRow
             /\ title filled = title lastRow
             /\ output filled = output lastRow
             /\ aiPrompt filled = aiPrompt lastRow
             /\ isExpanded filled = isExpanded lastRow
             /\ isLoading filled = isLoading lastRow
             /\ error filled = error lastRow
             /\ sectionInputs filled = sectionInputs lastRow
             /\ expandedInputs filled = expandedInputs lastRow
      else exists added,
             rows s' = front ++ [lastRow; added]
             /\ input added = text
             /\ id added = numberToString now
             /\ output added = []).
Proof.
  intros s'. subst s'. unfold handleImportDocument. simpl.
  split; [repeat split|]. split.
  - intros H. rewrite H. eexists. split; [reflexivity|]. repeat split.
  - intros front lastRow H. rewrite H.
    rewrite (proj1 (importRows_result now text front lastRow)).
    destruct (forallb isWhiteSpace (input lastRow)).
    + eexists. split; [reflexivity|]. repeat split.
    + eexists. rewrite <- app_assoc. split; [reflexivity|]. repeat split.
Qed.

Lemma import_fills_last_or_appends_witness :
  map input
      (rows (handleImportDocument 9 (lit "imported")
               (with_rows Samples.localDraft
                  [Samples.draftRow; Samples.rowA])))
    = [lit "draft"; lit "imported"]
  /\ map input
       (rows (handleImportDocument 9 (lit "imported") Samples.localDraft))
     = [lit "draft"; lit "imported"].
Proof.
  destruct (import_fills_last_or_appends 9 (lit "imported")
              (with_rows Samples.localDraft
                 [Samples.draftRow; Samples.rowA])) as (_ & _ & Hfill).
  destruct (import_fills_last_or_appends 9 (lit "imported")
              Samples.localDraft) as (_ & _ & Happend).
  specialize (Hfill [Samples.draftRow] Samples.rowA eq_refl).
  specialize (Happend [] Samples.draftRow eq_refl).
  change (forallb isWhiteSpace (input Samples.rowA)) with true in Hfill.
  change (forallb isWhiteSpace (input Samples.draftRow)) with false
    in Happend.
  destruct Hfill as (filled & Hrows & Hin & _).
  destruct Happend as (added & Hrows' & Hin' & _).
  rewrite Hrows, Hrows'. simpl. rewrite Hin, Hin'. split; reflexivity.
Defined.

(** ** Generation *)

(** C5, on the code: an answer without content comes back from
    [generateText] as an ordinary string, so the handler stores it as the
    section's output and leaves the error field unset. *)
Theorem empty_response_overwrites_output :
  rows (handleGenerateText (lit "1") true (ApiContent None)
          (with_rows Samples.localDraft [Samples.rowA]))
  = [ set_output_loading
        (set_loading_error Samples.rowA (Some true) None)
        (lit "Error: No content received from API.") (Some false) ]
  /\ forall r,
       In r (rows (handleGenerateText (lit "1") true (ApiContent None)
                     (with_rows Samples.localDraft [Samples.rowA]))) ->
       error r = None /\ output r <> output Samples.rowA.
Proof.
  split; [reflexivity|].
  intros r [<-|[]]. split; [reflexivity|discriminate].
Qed.

(** ** Saving *)

Lemma insertDoc_Forall (P : SavedDocument -> Prop) d l :
  P d -> Forall P l -> Forall P (insertDoc d l).
Proof.
  intros Hd. induction 1 as [|e l He Hl IH]; simpl.
  - constructor; [exact Hd|constructor].
  - destruct (updatedAt e <? updatedAt d)%Z; repeat constructor; assumption.
Qed.

Lemma insertDoc_sorted d l : sortedDesc l -> sortedDesc (insertDoc d l).
Proof.
  induction l as [|e l IH]; simpl.
  - intros _. split; [constructor|exact I].
  - intros (Hall & Hs).
    destruct (Z.ltb_spec (updatedAt e) (updatedAt d)) as [Hlt|Hge]; simpl.
    + split; [|split; assumption].
      constructor; [lia|].
      eapply Forall_impl; [|exact Hall]. simpl. intros; lia.
    + split; [|exact (IH Hs)].
      apply insertDoc_Forall; [lia|exact Hall].
Qed.

Lemma sortDocs_sorted l : sortedDesc (sortDocs l).
Proof.
  unfold sortDocs.
  assert (G : forall acc, sortedDesc acc ->
              sortedDesc (fold_left (fun a d => insertDoc d a) l acc)).
  { induction l as [|d l IH]; intros acc Hacc; simpl; [exact Hacc|].
    apply IH, insertDoc_sorted, Hacc. }
  apply G. exact I.
Qed.

Lemma idEq_true a b : idEq a b = true -> a = b.
Proof.
  destruct a as [x|], b as [y|]; simpl; try discriminate; [|reflexivity].
  unfold streq. destruct (jsstring_eq_dec x y); [now intros _; subst|discriminate].
Qed.

(** What the local save leaves in each field, read off the updater. *)
Lemma saveLocal_fields inCall now idClock t s :
  savedDocuments (saveLocal inCall now idClock t s)
    = fst (savedDocumentsUpdater now idClock t s (savedDocuments s))
  /\ currentDocumentId (saveLocal inCall now idClock t s)
     = match snd (savedDocumentsUpdater now idClock t s (savedDocuments s))
       with
       | Some n => if inCall then Some n else currentDocumentId s
       | None => currentDocumentId s
       end
  /\ rows (saveLocal inCall now idClock t s) = rows s
  /\ operatingMode (saveLocal inCall now idClock t s) = operatingMode s
  /\ appError (saveLocal inCall now idClock t s) = appError s
  /\ isAiInitialized (saveLocal inCall now idClock t s) = isAiInitialized s.
Proof.
  unfold saveLocal.
  destruct (savedDocumentsUpdater now idClock t s (savedDocuments s))
    as [updatedDocs assigned]. cbn [fst snd].
  destruct (idEq _ (currentDocumentId s)) eqn:E; simpl;
    repeat split; try reflexivity.
  now apply idEq_true in E.
Qed.

(** C4, on the code: in local mode, with an empty index and no open
    document, saving under a non-blank title leaves an index of exactly
    one document with the trimmed title, the active sections and the
    freshly generated id, sorted newest first, and the active sections
    untouched; the open-document id is bound to the new id only when
    React runs the updater inside the call of [setSavedDocuments], and
    stays unset when the updater is run at the next render. *)
Theorem first_local_save
    (inCall : bool) (now : Z) (idClock : N) (o : SaveOutcome) (h : Hook)
    (t : jsstring) (s : State) :
  operatingMode s = Local ->
  savedDocuments s = [] ->
  currentDocumentId s = None ->
  trim t <> [] ->
  let s' := handleSaveDocument inCall now idClock o h t s in
  savedDocuments s'
    = [ {| doc_id := numberToString idClock; doc_title := trim t;
           createdAt := now; updatedAt := now; doc_rows := rows s |} ]
  /\ List.length (savedDocuments s') = 1
  /\ sortedDesc (savedDocuments s')
  /\ currentDocumentId s'
     = (if inCall then Some (numberToString idClock) else None)
  /\ rows s' = rows s
  /\ operatingMode s' = Local.
Proof.
  intros Hmode Hdocs Hcur Ht s'. subst s'. unfold handleSaveDocument.
  destruct (trim t) as [|c r] eqn:T; [contradiction|]. cbn [truthy negb].
  rewrite Hmode.
  destruct (saveLocal_fields inCall now idClock (c :: r) s)
    as (Hd & Hc & Hr & Hm & _).
  rewrite Hd, Hc, Hr, Hm. unfold savedDocumentsUpdater.
  rewrite Hcur, Hdocs. cbn [fst snd app]. unfold sortDocs. simpl.
  repeat split; try assumption; constructor.
Qed.

Lemma first_local_save_witness :
  let s' := handleSaveDocument false 1700000000500 1700000000501
              Samples.anySave Samples.anyHook (lit " My Doc ")
              Samples.localDraft in
  map doc_title (savedDocuments s') = [lit "My Doc"]
  /\ map doc_rows (savedDocuments s') = [[Samples.draftRow]]
  /\ currentDocumentId s' = None.
Proof.
  destruct (@first_local_save false 1700000000500 1700000000501
              Samples.anySave Samples.anyHook (lit " My Doc ")
              Samples.localDraft)
    as (Hdocs & _ & _ & Hcur & _).
  - reflexivity.
  - reflexivity.
  - reflexivity.
  - vm_compute. discriminate.
  - cbv zeta. rewrite Hdocs, Hcur. vm_compute. repeat split.
Defined.

(** ** The section list *)

Lemma loadFromSupabase_rows now o s :
  rows s <> [] -> rows (loadFromSupabase now o s) <> [].
Proof. destruct o; simpl; auto; discriminate. Qed.

Lemma closeIfOpen_rows now i s :
  rows s <> [] -> rows (closeIfOpen now i s) <> [].
Proof.
  unfold closeIfOpen.
  destruct (idEq (currentDocumentId s) (Some i)); simpl; auto; discriminate.
Qed.

(** The sections a local initialisation installs: those of the stored
    document the stored id names, the default section, or the stored
    rows when they are not a blank draft. *)
Lemma loadFromLocalStorage_rows t1 t2 ls s :
  let r := rows (fst (loadFromLocalStorage t1 t2 ls s)) in
  let docs := getItem (readThrows ls) (docsItem ls) [] in
  let localRows :=
    getItem (readThrows ls) (rowsItem ls) [createInitialRow t1] in
  r = [createInitialRow t2]
  \/ (exists d, In d docs /\ r = doc_rows d)
  \/ (r = localRows /\ isBlankDraft localRows = false).
Proof.
  cbv zeta. unfold loadFromLocalStorage.
  destruct (idTruthy (getItem (readThrows ls) (idItem ls) None)).
  - destruct (find _ _) as [d|] eqn:F; simpl; [|now left].
    right. left. exists d. split; [|reflexivity].
    apply find_some in F. apply F.
  - destruct (isBlankDraft _) eqn:B; simpl; [now left|].
    right. right. split; reflexivity.
Qed.

(** C3, as amended: deleting a section of a one-section list changes
    nothing; a new document puts a single default section in place, and
    so does the deletion of the open document when it is carried out (in
    local mode, or in remote mode once the store has accepted it,
    whatever the reload answers) and a remote initialisation that
    succeeds; opening a document installs its stored sections; a local
    initialisation installs the sections of a stored document, the
    default section, or stored rows that are not blank; so the list is
    non-empty after each of them when the stored documents have
    sections. *)
Theorem section_list_operations (s : State) :
  rows s <> [] ->
  (forall i, List.length (rows s) = 1 -> handleDeleteRow i s = s)
  /\ (forall now, rows (handleNewDocument now s) = [createInitialRow now]
                  /\ currentDocumentId (handleNewDocument now s) = None)
  /\ (forall now o h i, rows (handleDeleteDocument now o h i s) <> [])
  /\ (forall now o h i,
        currentDocumentId s = Some i ->
        (operatingMode s = Local
         \/ (operatingMode s = Supabase /\ supabase h = true
             /\ exists reload, o = DeleteOk reload)) ->
        rows (handleDeleteDocument now o h i s) = [createInitialRow now]
        /\ currentDocumentId (handleDeleteDocument now o h i s) = None)
  /\ (forall d, rows (handleOpenDocument d s) = doc_rows d
                /\ currentDocumentId (handleOpenDocument d s)
                   = Some (doc_id d))
  /\ (forall t1 t2 h docs ls,
        supabaseLoading h = false ->
        supabase h = true -> supabaseInitialized h = true ->
        rows (fst (initialize t1 t2 h (LoadOk docs) ls s))
        = [createInitialRow t1])
  /\ (forall t1 t2 h o ls,
        supabaseLoading h = false ->
        supabase h && supabaseInitialized h = false ->
        let r := rows (fst (initialize t1 t2 h o ls s)) in
        let docs := getItem (readThrows ls) (docsItem ls) [] in
        let localRows :=
          getItem (readThrows ls) (rowsItem ls) [createInitialRow t1] in
        r = [createInitialRow t2]
        \/ (exists d, In d docs /\ r = doc_rows d)
        \/ (r = localRows /\ isBlankDraft localRows = false))
  /\ (forall t1 t2 h o ls,
        (forall docs, docsItem ls = Some (Json docs) ->
                      Forall (fun d => doc_rows d <> []) docs) ->
        rows (fst (initialize t1 t2 h o ls s)) <> []).
Proof.
  intros Hne.
  split; [|split; [|split; [|split; [|split; [|split; [|split]]]]]].
  - intros i Hlen. unfold handleDeleteRow. now rewrite Hlen.
  - intros now. split; reflexivity.
  - intros now o h i. unfold handleDeleteDocument.
    destruct (operatingMode s); try exact Hne.
    + destruct (supabase h); [|exact Hne].
      destruct o; [exact Hne|].
      apply loadFromSupabase_rows, closeIfOpen_rows. exact Hne.
    + apply closeIfOpen_rows. exact Hne.
  - intros now o h i Hc Hm. unfold handleDeleteDocument.
    assert (Hclose : forall st,
              currentDocumentId st = Some i ->
              rows (closeIfOpen now i st) = [createInitialRow now]
              /\ currentDocumentId (closeIfOpen now i st) = None).
    { intros st Hst. unfold closeIfOpen. rewrite Hst. simpl.
      rewrite streq_refl. split; reflexivity. }
    destruct Hm as [Hm|(Hm & Hh & reload & Ho)]; rewrite Hm.
    + apply Hclose. exact Hc.
    + rewrite Hh, Ho.
      destruct (Hclose (with_mode s Loading) Hc) as (Hr & Hcur).
      destruct reload; simpl; try (split; [exact Hr|exact Hcur]).
      split; reflexivity.
  - intros d. split; reflexivity.
  - intros t1 t2 h docs ls Hl Hs Hi. unfold initialize.
    rewrite Hl, Hs, Hi. reflexivity.
  - intros t1 t2 h o ls Hl Hs. unfold initialize. rewrite Hl, Hs.
    apply loadFromLocalStorage_rows.
  - intros t1 t2 h o ls Hstored. unfold initialize.
    destruct (supabaseLoading h); [exact Hne|].
    destruct (supabase h && supabaseInitialized h).
    + simpl. apply loadFromSupabase_rows. exact Hne.
    + destruct (loadFromLocalStorage_rows t1 t2 ls s)
        as [E|[(d & Hin & E)|(E & B)]]; cbv zeta in *; rewrite E.
      * discriminate.
      * unfold getItem in Hin.
        destruct (readThrows ls); [destruct Hin|].
        destruct (docsItem ls) as [[|docs]|] eqn:D; try destruct Hin.
        pose proof (Hstored docs eq_refl) as Hall.
        rewrite Forall_forall in Hall. exact (Hall d Hin).
      * intros E'. rewrite E' in B. discriminate.
Qed.

Lemma section_list_operations_witness :
  handleDeleteRow (lit "1") (with_rows Samples.localDraft [Samples.rowA])
    = with_rows Samples.localDraft [Samples.rowA]
  /\ rows (handleDeleteDocument 9 (DeleteOk Samples.failedLoad)
             Samples.clientHook (lit "d1") Samples.remoteSession)
     = [createInitialRow 9]
  /\ rows (fst (initialize 7 8 Samples.clientHook (LoadOk [Samples.savedA])
                  Samples.goodStore Samples.localDraft))
     = [createInitialRow 7]
  /\ rows (fst (initialize 7 8 Samples.anyHook Samples.failedLoad
                  Samples.goodStore Samples.localDraft))
     = [Samples.rowA; Samples.rowB].
Proof.
  destruct (@section_list_operations
              (with_rows Samples.localDraft [Samples.rowA]))
    as (Hdel & _); [discriminate|].
  destruct (@section_list_operations Samples.remoteSession)
    as (_ & _ & _ & Hopen & _); [discriminate|].
  destruct (@section_list_operations Samples.localDraft)
    as (_ & _ & _ & _ & _ & Hremote & _); [discriminate|].
  split; [apply Hdel; reflexivity|].
  split.
  - apply (Hopen 9%N (DeleteOk Samples.failedLoad) Samples.clientHook
                 (lit "d1")); [reflexivity|].
    right. split; [reflexivity|]. split; [reflexivity|].
    eexists. reflexivity.
  - split; [apply Hremote; reflexivity|reflexivity].
Defined.

(** C3 as stated fails for [Open]: a stored document without sections
    leaves the active list empty. *)
Lemma open_empty_document :
  ~ (forall (d : SavedDocument) (s : State),
       rows s <> [] -> rows (handleOpenDocument d s) <> []).
Proof.
  intros H.
  apply (H Samples.emptyDoc Samples.localDraft); [discriminate|reflexivity].
Qed.

(** ** Storage failures *)

(** C8, as amended: a failing read is caught inside [getItem] and
    answered with the default, so a local initialisation over a store
    whose reads throw ends in local mode with the default section, an
    empty index and no recorded cause; a failing write is caught inside
    [setItem] and leaves the store as it was; an item that does not
    parse is answered with the default as well. *)
Theorem storage_failures_are_absorbed
    (t1 t2 : N) (ls : LocalStorage) (s : State) :
  (readThrows ls = true ->
   loadFromLocalStorage t1 t2 ls s
   = ({| operatingMode := Local; appError := None;
         rows := [createInitialRow t2]; savedDocuments := [];
         currentDocumentId := None;
         isAiInitialized := isAiInitialized s |}, ls))
  /\ (writeThrows ls = true ->
      saveStateToLocalStorage s ls = ls /\ persistEffect s ls = ls)
  /\ (forall (T : Type) (item : option (Item T)) (initialValue : T),
      getItem true item initialValue = initialValue
      /\ getItem false (Some Malformed) initialValue = initialValue).
Proof.
  split; [|split; [|split; reflexivity]].
  - intros Hr. unfold loadFromLocalStorage, getItem. rewrite Hr. reflexivity.
  - intros Hw.
    assert (E : saveStateToLocalStorage s ls = ls).
    { unfold saveStateToLocalStorage, setId, setDocs, setRows.
      now rewrite !Hw. }
    split; [exact E|]. unfold persistEffect.
    destruct (operatingMode s); auto.
Qed.

Lemma storage_failures_are_absorbed_witness :
  operatingMode (fst (loadFromLocalStorage 7 8 Samples.brokenStore
                        (initialState 5))) = Local
  /\ appError (fst (loadFromLocalStorage 7 8 Samples.brokenStore
                      (initialState 5))) = None
  /\ persistEffect Samples.localDraft Samples.brokenStore
     = Samples.brokenStore.
Proof.
  destruct (@storage_failures_are_absorbed 7 8 Samples.brokenStore
              (initialState 5)) as (Hread & _).
  destruct (@storage_failures_are_absorbed 7 8 Samples.brokenStore
              Samples.localDraft) as (_ & Hwrite & _).
  rewrite (Hread eq_refl).
  split; [reflexivity|split; [reflexivity|exact (proj2 (Hwrite eq_refl))]].
Defined.

(** C8 as stated fails: with every storage read throwing, the local
    initialisation does not end in the error mode. *)
Lemma read_failure_is_not_surfaced :
  ~ (forall (t1 t2 : N) (ls : LocalStorage) (s : State),
       readThrows ls = true ->
       operatingMode (fst (loadFromLocalStorage t1 t2 ls s)) = ModeError
       /\ appError (fst (loadFromLocalStorage t1 t2 ls s)) <> None).
Proof.
  intros H.
  destruct (H 7%N 8%N Samples.brokenStore (initialState 5) eq_refl)
    as (Hmode & _).
  discriminate Hmode.
Qed.

(** ** Modes *)

(** The single-row handlers are instances of [MapRow]. *)
Lemma row_handlers_are_MapRow i t s :
  handleUpdateTitle i t s
    = step s (MapRow i (fun r => set_title_output r t (output r)))
  /\ handleUpdateInput i t s = step s (MapRow i (fun r => set_input r t))
  /\ handleUpdateOutput i t s
     = step s (MapRow i (fun r => set_title_output r (title r) t)).
Proof. repeat split. Qed.

Ltac break_if :=
  match goal with
  | |- context [if ?b then _ else _] => destruct b eqn:?
  end.

Ltac break_match :=
  match goal with
  | |- context [match ?x with _ => _ end] => destruct x eqn:?
  end.

Lemma saveLocal_mode inCall now idClock t s :
  operatingMode (saveLocal inCall now idClock t s) = operatingMode s.
Proof. apply saveLocal_fields. Qed.

Lemma closeIfOpen_mode now i s :
  operatingMode (closeIfOpen now i s) = operatingMode s.
Proof. unfold closeIfOpen. break_if; reflexivity. Qed.

Lemma handleGenerateText_mode i ready resp s :
  operatingMode (handleGenerateText i ready resp s) = operatingMode s.
Proof.
  unfold handleGenerateText. break_if; [reflexivity|].
  destruct (find _ (rows s)); [|reflexivity].
  now destruct (generateText ready resp).
Qed.

Lemma handleDeleteRow_mode i s :
  operatingMode (handleDeleteRow i s) = operatingMode s.
Proof. unfold handleDeleteRow. break_if; reflexivity. Qed.

Lemma settled_step s op :
  settled (operatingMode s) = true ->
  operatingMode (step s op) = operatingMode s.
Proof.
  intros Hs. destruct op; simpl; try reflexivity.
  - apply handleDeleteRow_mode.
  - apply handleGenerateText_mode.
  - unfold handleSaveDocument. break_if; [reflexivity|].
    destruct (operatingMode s) eqn:M; try discriminate Hs.
    + now rewrite saveLocal_mode.
    + exact M.
  - unfold handleDeleteDocument.
    destruct (operatingMode s) eqn:M; try discriminate Hs.
    + now rewrite closeIfOpen_mode.
    + exact M.
Qed.

Lemma loadFromSupabase_not_local now o s :
  operatingMode (loadFromSupabase now o s) <> Local.
Proof. destruct o; discriminate. Qed.

Lemma step_never_falls_back s op :
  operatingMode s <> Local -> operatingMode (step s op) <> Local.
Proof.
  intros Hs. destruct op; simpl; try exact Hs.
  - now rewrite handleDeleteRow_mode.
  - now rewrite handleGenerateText_mode.
  - unfold handleSaveDocument. break_if; [exact Hs|].
    destruct (operatingMode s) eqn:M; try contradiction;
      try (simpl; rewrite M; discriminate).
    destruct (supabase h); [|simpl; rewrite M; discriminate].
    destruct o; try discriminate. apply loadFromSupabase_not_local.
  - unfold handleDeleteDocument.
    destruct (operatingMode s) eqn:M; try contradiction;
      try (simpl; rewrite M; discriminate).
    destruct (supabase h); [|simpl; rewrite M; discriminate].
    destruct o; try discriminate. apply loadFromSupabase_not_local.
Qed.

Lemma modes_settled ops : forall s,
  settled (operatingMode s) = true ->
  Forall (fun m => m = operatingMode s) (modes ops s).
Proof.
  induction ops as [|op ops IH]; intros s Hs; simpl.
  - constructor; [reflexivity|constructor].
  - constructor; [reflexivity|].
    rewrite <- (settled_step s op Hs). apply IH.
    now rewrite (settled_step s op Hs).
Qed.

Lemma modes_last : forall ops s, In (operatingMode (run ops s)) (modes ops s).
Proof.
  induction ops as [|op ops IH]; intros s; simpl; [now left|].
  right. apply IH.
Qed.

Lemma remote_failure_step s op :
  operatingMode s = Supabase -> remoteFailure op = true ->
  operatingMode (step s op) = ModeError /\ appError (step s op) <> None.
Proof.
  intros Hm Hf. destruct op; simpl in Hf; try discriminate; simpl.
  - apply andb_prop in Hf. destruct Hf as (Hf & Ho).
    apply andb_prop in Hf. destruct Hf as (Ht & Hh).
    unfold handleSaveDocument. rewrite Ht, Hm, Hh. simpl.
    destruct o as [m|m|i [m|m|docs]]; simpl in *;
      try discriminate Ho; split; (reflexivity || discriminate).
  - apply andb_prop in Hf. destruct Hf as (Hh & Ho).
    unfold handleDeleteDocument. rewrite Hm, Hh.
    destruct o as [m|[m|m|docs]]; simpl in *;
      try discriminate Ho; split; (reflexivity || discriminate).
Qed.

Lemma initialize_mode t1 t2 h o ls s :
  operatingMode (fst (initialize t1 t2 h o ls s))
  = if supabaseLoading h then Loading
    else if supabase h && supabaseInitialized h
         then (if loadFails o then ModeError else Supabase)
         else Local.
Proof.
  unfold initialize. destruct (supabaseLoading h); [reflexivity|].
  destruct (supabase h && supabaseInitialized h).
  - destruct o; reflexivity.
  - unfold loadFromLocalStorage. repeat break_if; try reflexivity.
    break_match; reflexivity.
Qed.

(** C9, as amended: from local or error mode, no sequence of session
    operations changes the mode, whatever the collaborators answer, so
    the remote mode is not shown again by them; a refused remote request
    ends in the error mode with its cause recorded; no session operation
    enters local mode from another mode; the mode-deciding effect sets
    the mode from what the hook and the remote store report, whatever the
    mode was. *)
Theorem handlers_keep_settled_mode (ops : list Op) (s : State) :
  (settled (operatingMode s) = true ->
   Forall (fun m => m <> Supabase) (modes ops s)
   /\ operatingMode (run ops s) = operatingMode s)
  /\ (forall op, operatingMode s = Supabase -> remoteFailure op = true ->
       operatingMode (step s op) = ModeError /\ appError (step s op) <> None)
  /\ (operatingMode s <> Local -> ~ In Local (modes ops s))
  /\ (forall t1 t2 h o ls s',
       operatingMode (fst (initialize t1 t2 h o ls s))
       = operatingMode (fst (initialize t1 t2 h o ls s'))).
Proof.
  split; [|split; [|split]].
  - intros Hs. pose proof (modes_settled ops s Hs) as Hall. split.
    + eapply Forall_impl; [|exact Hall]. simpl. intros m ->.
      destruct (operatingMode s); discriminate.
    + rewrite Forall_forall in Hall. apply Hall, modes_last.
  - intros op. apply remote_failure_step.
  - revert s. induction ops as [|op ops IH]; intros s Hs; simpl.
    + intros [E|[]]. congruence.
    + intros [E|Hin]; [congruence|].
      exact (IH _ (step_never_falls_back s op Hs) Hin).
  - intros. now rewrite !initialize_mode.
Qed.

Lemma handlers_keep_settled_mode_witness :
  modes Samples.localOps Samples.localDraft
    = [Local; Local; Local; Local; Local; Local]
  /\ operatingMode (step Samples.remoteSession Samples.failingSave)
     = ModeError
  /\ ~ In Local (modes [Samples.failingSave] Samples.remoteSession).
Proof.
  destruct (handlers_keep_settled_mode Samples.localOps Samples.localDraft)
    as (Hsettled & _).
  destruct (handlers_keep_settled_mode [Samples.failingSave]
              Samples.remoteSession)
    as (_ & Hfail & Hlocal & _).
  destruct (Hsettled eq_refl) as (_ & _).
  destruct (Hfail Samples.failingSave eq_refl eq_refl) as (Hmode & _).
  split; [reflexivity|split; [exact Hmode|apply Hlocal; discriminate]].
Defined.

(** C9 as stated fails for the mode-deciding effect: it runs again when
    what the hook reports changes, and a session that fell back to local
    storage is then put in remote mode. *)
Lemma hook_change_restores_remote :
  ~ (forall (t1 t2 : N) (h : Hook) (o : LoadOutcome) (ls : LocalStorage)
            (s : State),
       settled (operatingMode s) = true ->
       operatingMode (fst (initialize t1 t2 h o ls s)) <> Supabase).
Proof.
  intros H.
  apply (H 9%N 9%N Samples.clientHook (LoadOk [Samples.savedA])
           Samples.goodStore
           (fst (initialize 7 8 Samples.anyHook Samples.failedLoad
                   Samples.goodStore (initialState 5)))).
  - reflexivity.
  - reflexivity.
Qed.

(** * Further properties *)

(** ** The node scan, counted *)

Lemma scan_open_count nodes : forall cl c,
  List.length (newSectionsData
                 (fold_left scanNode nodes
                            {| closed := cl; currentSection := Some c |}))
  = S (List.length cl) + headingCount nodes.
Proof.
  induction nodes as [|n nodes IH]; intros cl c; simpl.
  - rewrite newSectionsData_current, length_app. simpl.
    unfold headingCount. simpl. lia.
  - destruct (scanNode_open cl c n) as (cl' & c' & E & _).
    rewrite E, IH. unfold scanNode in E. simpl in E.
    unfold headingCount. simpl. destruct (isH2 n); simpl.
    + inversion E; subst. rewrite newSectionsData_current, length_app.
      simpl. lia.
    + destruct (negb (isHR n)); inversion E; subst; lia.
Qed.

Lemma deriveSections_length (nodes : list Node) :
  List.length (deriveSections nodes)
  = headingCount nodes + (if hasLeadingContent nodes then 1 else 0).
Proof.
  unfold deriveSections, scanNodes. rewrite length_map.
  induction nodes as [|n nodes IH]; [reflexivity|].
  simpl fold_left. unfold hasLeadingContent, headingCount. simpl.
  unfold scanNode at 2. simpl.
  destruct (isH2 n) eqn:Hh; simpl.
  - rewrite scan_open_count. simpl. unfold headingCount. lia.
  - destruct (negb (isHR n) && hasVisibleText n) eqn:Hv; simpl.
    + rewrite scan_open_count. simpl. unfold headingCount. lia.
    + exact IH.
Qed.

(** X1: the number of derived sections is the number of level-2 heading
    nodes, plus one when a node with visible text that is not a rule
    comes before the first heading. *)
Theorem derived_section_count (nodes : list Node) :
  List.length (deriveSections nodes)
  = headingCount nodes + (if hasLeadingContent nodes then 1 else 0).
Proof. apply deriveSections_length. Qed.

(** X26: when the parser returns the nodes of the wrapper, the sync
    calls [onUpdateAllRows] exactly when the number of level-2 headings,
    plus one for visible content before the first, equals the number of
    rows; when the wrapper is missing it reports "Could not parse
    content." and calls nothing. *)
Theorem sync_succeeds_iff_counts_match
    (parse : jsstring -> option (list Node)) (content : jsstring)
    (rows : list DocumentRow) :
  match parse (wrap content) with
  | Some nodes =>
      fst (handleSyncContinuousChanges parse content rows) <> None
      <-> headingCount nodes + (if hasLeadingContent nodes then 1 else 0)
          = List.length rows
  | None =>
      handleSyncContinuousChanges parse content rows
      = (None, {| st_type := Error;
                  st_message := lit "Could not parse content." |})
  end.
Proof.
  unfold handleSyncContinuousChanges, split.
  destruct (parse (wrap content)) as [nodes|]; [|reflexivity].
  cbv zeta. rewrite deriveSections_length.
  destruct (Nat.eqb_spec
              (headingCount nodes
               + (if hasLeadingContent nodes then 1 else 0))
              (List.length rows)) as [E|E]; simpl.
  - split; [intros _; exact E|discriminate].
  - split; [intros H; now contradiction H|intros H; contradiction].
Qed.

(** ** Sync, repeated and framed *)

Lemma updateRow_settled derived row i :
  updateRow derived (rowOf (updateRow derived row i)) i
  = SameObject (rowOf (updateRow derived row i)).
Proof.
  unfold updateRow. destruct (nth_error derived i) as [d|] eqn:Hd.
  - destruct (strneq (title row) (sd_title d)
              || strneq (output row) (outputHTML d)) eqn:C; simpl.
    + unfold strneq, streq.
      destruct (jsstring_eq_dec (sd_title d) (sd_title d));
        [|contradiction].
      destruct (jsstring_eq_dec (outputHTML d) (outputHTML d));
        [reflexivity|contradiction].
    + now rewrite C.
  - reflexivity.
Qed.

Lemma updatedRows_settled derived rows : forall i,
  mapi_from (updateRow derived) i
            (map rowOf (mapi_from (updateRow derived) i rows))
  = map SameObject (map rowOf (mapi_from (updateRow derived) i rows)).
Proof.
  induction rows as [|r rows IH]; intros i; simpl; [reflexivity|].
  now rewrite updateRow_settled, IH.
Qed.

(** X2: a sync that succeeded, run again on the rows it produced and the
    same markup, succeeds and returns every row as the object it was
    given. *)
Theorem sync_again_changes_nothing
    (parse : jsstring -> option (list Node)) (content : jsstring)
    (rows : list DocumentRow) (updated : list RowUpdate) (st : SyncStatus) :
  handleSyncContinuousChanges parse content rows = (Some updated, st) ->
  handleSyncContinuousChanges parse content (map rowOf updated)
  = (Some (map SameObject (map rowOf updated)), st).
Proof.
  unfold handleSyncContinuousChanges.
  destruct (split parse content (List.length rows)) as [derived|msg] eqn:E;
    [|discriminate].
  intros H. inversion H; subst. clear H.
  unfold updatedRows. rewrite length_map, mapi_from_length, E.
  now rewrite updatedRows_settled.
Qed.

Lemma sync_again_changes_nothing_witness :
  exists updated,
    handleSyncContinuousChanges Dom.wrapperChildNodes Samples.bodyEdited
      (map rowOf updated)
    = (Some (map SameObject (map rowOf updated)),
       {| st_type := Success;
          st_message := lit "Changes synced successfully!" |}).
Proof.
  eexists.
  apply (@sync_again_changes_nothing Dom.wrapperChildNodes
           Samples.bodyEdited [Samples.rowA; Samples.rowB]).
  vm_compute. reflexivity.
Defined.

Lemma updatedRows_ids derived rows : forall i,
  map id (map rowOf (mapi_from (updateRow derived) i rows)) = map id rows
  /\ map input (map rowOf (mapi_from (updateRow derived) i rows))
     = map input rows.
Proof.
  induction rows as [|r rows IH]; intros i; simpl; [split; reflexivity|].
  destruct (IH (S i)) as (H1 & H2). rewrite H1, H2.
  unfold updateRow. destruct (nth_error derived i); simpl;
    [break_if|]; split; reflexivity.
Qed.

(** X3: whatever the markup and whatever the parser answers, the rows
    after a sync are as many as before and carry the same ids and the
    same inputs, in the same order. *)
Theorem sync_keeps_ids_and_inputs
    (parse : jsstring -> option (list Node)) (content : jsstring)
    (rows : list DocumentRow) :
  List.length (rowsAfterSync parse content rows) = List.length rows
  /\ map id (rowsAfterSync parse content rows) = map id rows
  /\ map input (rowsAfterSync parse content rows) = map input rows.
Proof.
  unfold rowsAfterSync, handleSyncContinuousChanges.
  destruct (split parse content (List.length rows)) as [derived|msg];
    simpl; [|repeat split].
  destruct (updatedRows_ids derived rows 0) as (H1 & H2).
  unfold updatedRows. rewrite length_map, mapi_from_length.
  repeat split; assumption.
Qed.

(** ** Rows: deletion, edits, notes *)

Lemma with_rows_same s : with_rows s (rows s) = s.
Proof. now destruct s. Qed.

Lemma keepOthers_absent i l :
  ~ In i (map id l) -> keepOthers i l = l.
Proof.
  induction l as [|r l IH]; simpl; [reflexivity|].
  intros H. rewrite streq_neq by (intros E; apply H; now left).
  simpl. f_equal. apply IH. intros Hin. apply H. now right.
Qed.

Lemma keepOthers_one i l :
  NoDup (map id l) -> In i (map id l) ->
  S (List.length (keepOthers i l)) = List.length l.
Proof.
  induction l as [|r l IH]; simpl; [intros _ []|].
  intros Hnd Hin. inversion Hnd as [|? ? Hnotin Hnd']; subst.
  destruct (jsstring_eq_dec (id r) i) as [E|E].
  - rewrite E, streq_refl. simpl. rewrite keepOthers_absent; [reflexivity|].
    now rewrite <- E.
  - rewrite (streq_neq E). simpl. f_equal. apply IH; [exact Hnd'|].
    destruct Hin as [Hin|Hin]; [contradiction|exact Hin].
Qed.

(** X4: with at least two rows of pairwise distinct ids, deleting the
    row of a present id removes exactly that row: one row fewer, no row
    of that id left, every other row kept. *)
Theorem delete_row_removes_one (i : jsstring) (s : State) :
  NoDup (map id (rows s)) ->
  1 < List.length (rows s) ->
  In i (map id (rows s)) ->
  S (List.length (rows (handleDeleteRow i s))) = List.length (rows s)
  /\ ~ In i (map id (rows (handleDeleteRow i s)))
  /\ (forall r, In r (rows s) -> id r <> i ->
                In r (rows (handleDeleteRow i s))).
Proof.
  intros Hnd Hlen Hin. unfold handleDeleteRow.
  apply Nat.ltb_lt in Hlen. rewrite Hlen. simpl.
  change (filter (fun row => negb (streq (id row) i)) (rows s))
    with (keepOthers i (rows s)).
  split; [now apply keepOthers_one|]. split.
  - intros H. apply in_map_iff in H. destruct H as (r & Hr & Hf).
    apply filter_In in Hf. destruct Hf as (_ & Hf).
    rewrite Hr, streq_refl in Hf. discriminate.
  - intros r Hr Hne. apply filter_In. split; [exact Hr|].
    now rewrite (streq_neq Hne).
Qed.

Lemma delete_row_removes_one_witness :
  rows (handleDeleteRow (lit "2")
          (with_rows Samples.localDraft
             [Samples.rowA; Samples.rowB; Samples.rowC]))
  = [Samples.rowA; Samples.rowC].
Proof.
  destruct (@delete_row_removes_one (lit "2")
              (with_rows Samples.localDraft
                 [Samples.rowA; Samples.rowB; Samples.rowC]))
    as (_ & _ & _).
  - simpl. repeat constructor; simpl; intuition discriminate.
  - simpl. lia.
  - simpl. right. left. reflexivity.
  - reflexivity.
Defined.

(** X5: the guard of the row deletion counts rows, not ids: when two or
    more rows all carry the deleted id, the deletion leaves no row. *)
Theorem delete_row_shared_id (i : jsstring) (s : State) :
  1 < List.length (rows s) ->
  Forall (fun r => id r = i) (rows s) ->
  rows (handleDeleteRow i s) = [].
Proof.
  intros Hlen Hall. unfold handleDeleteRow.
  apply Nat.ltb_lt in Hlen. rewrite Hlen. simpl. clear Hlen.
  induction Hall as [|r l Hr _ IH]; [reflexivity|].
  simpl. rewrite Hr, streq_refl. exact IH.
Qed.

Lemma delete_row_shared_id_witness :
  rows (handleDeleteRow (numberToString 20)
          (handleAddRow 20 (handleNewDocument 20 Samples.localDraft))) = [].
Proof.
  apply delete_row_shared_id.
  - simpl. lia.
  - repeat constructor.
Defined.

(** X6: a handler that rewrites the row of a given id with a function
    that keeps the id leaves the ids of all rows as they were, keeps
    every row of another id, and changes nothing when no row has the
    id. *)
Theorem single_row_edit_frame
    (i : jsstring) (f : DocumentRow -> DocumentRow) (l : list DocumentRow) :
  (forall r, id (f r) = id r) ->
  map id (mapRow i f l) = map id l
  /\ (forall r, In r l -> id r <> i -> In r (mapRow i f l))
  /\ (~ In i (map id l) -> mapRow i f l = l).
Proof.
  intros Hf. unfold mapRow. split; [|split].
  - rewrite map_map. apply map_ext. intros r. break_if; [apply Hf|reflexivity].
  - intros r Hr Hne. apply in_map_iff. exists r.
    split; [now rewrite (streq_neq Hne)|exact Hr].
  - intros Habs. rewrite <- (map_id l) at 2. apply map_ext_in.
    intros r Hr. rewrite streq_neq; [reflexivity|].
    intros E. apply Habs. rewrite <- E. now apply in_map.
Qed.

Lemma single_row_edit_frame_witness :
  map id (rows (handleUpdateTitle (lit "2") (lit "New")
                  (with_rows Samples.localDraft
                     [Samples.rowA; Samples.rowB])))
  = [lit "1"; lit "2"].
Proof.
  unfold handleUpdateTitle. cbn [rows with_rows].
  rewrite (proj1 (@single_row_edit_frame (lit "2")
                    (fun r => set_title_output r (lit "New") (output r))
                    [Samples.rowA; Samples.rowB] (fun r => eq_refl))).
  reflexivity.
Defined.

(** X7: adding a row and deleting it again gives back the state, when
    the clock-derived id of the new row is not already in use and the
    list was not empty. *)
Theorem add_then_delete_row (now : N) (s : State) :
  rows s <> [] ->
  ~ In (numberToString now) (map id (rows s)) ->
  handleDeleteRow (numberToString now) (handleAddRow now s) = s.
Proof.
  intros Hne Hfresh. unfold handleDeleteRow, handleAddRow.
  cbn [rows with_rows]. rewrite length_app.
  assert (L : (1 <? List.length (rows s) + List.length [createInitialRow now])
              = true).
  { apply Nat.ltb_lt. destruct (rows s); [contradiction|simpl; lia]. }
  rewrite L, filter_app.
  fold (keepOthers (numberToString now) (rows s)).
  rewrite (keepOthers_absent _ _ Hfresh).
  cbn [filter]. change (id (createInitialRow now)) with (numberToString now).
  rewrite streq_refl. cbn [negb]. rewrite app_nil_r.
  now destruct s.
Qed.

Lemma add_then_delete_row_witness :
  handleDeleteRow (numberToString 5) (handleAddRow 5 Samples.localDraft)
  = Samples.localDraft.
Proof.
  apply add_then_delete_row.
  - discriminate.
  - simpl. intros [H|[]]. vm_compute in H. discriminate.
Defined.

Lemma mapRow_twice i f g l :
  (forall r, id (f r) = id r) ->
  mapRow i g (mapRow i f l) = mapRow i (fun r => g (f r)) l.
Proof.
  intros Hf. unfold mapRow. rewrite map_map. apply map_ext. intros r.
  destruct (streq (id r) i) eqn:E; [now rewrite Hf, E|now rewrite E].
Qed.

Lemma mapRow_same i f l : (forall r, f r = r) -> mapRow i f l = l.
Proof.
  intros Hf. unfold mapRow. rewrite <- (map_id l) at 2. apply map_ext.
  intros r. break_if; [apply Hf|reflexivity].
Qed.

Lemma with_rows_twice s a b : with_rows (with_rows s a) b = with_rows s b.
Proof. reflexivity. Qed.

Lemma rows_with_rows s a : rows (with_rows s a) = a.
Proof. reflexivity. Qed.

(** X8: toggling the expansion of a section twice, or of one of its note
    categories twice, gives back the state. *)
Theorem toggles_are_involutions (i : jsstring) (c : InputCategory)
    (s : State) :
  handleToggleExpand i (handleToggleExpand i s) = s
  /\ handleToggleInputExpand i c (handleToggleInputExpand i c s) = s.
Proof.
  unfold handleToggleExpand, handleToggleInputExpand.
  rewrite !rows_with_rows, !with_rows_twice. split.
  - rewrite mapRow_twice by reflexivity. rewrite mapRow_same.
    + apply with_rows_same.
    + intros r. destruct r. simpl. now rewrite negb_involutive.
  - rewrite mapRow_twice by reflexivity. rewrite mapRow_same.
    + apply with_rows_same.
    + intros [? ? ? ? ? ? ? ? ? e]. destruct e, c; simpl;
        now rewrite negb_involutive.
Qed.

Lemma removeNoteFrom_last l x : forall k,
  removeNoteFrom k (k + List.length l) (l ++ [x]) = l.
Proof.
  induction l as [|y l IH]; intros k; simpl.
  - now rewrite Nat.add_0_r, Nat.eqb_refl.
  - destruct (Nat.eqb_spec k (k + S (List.length l))) as [E|_]; [lia|].
    f_equal. replace (k + S (List.length l)) with (S k + List.length l) by lia.
    apply IH.
Qed.

Lemma removeNoteFrom_beyond l : forall k index,
  index < k \/ k + List.length l <= index -> removeNoteFrom k index l = l.
Proof.
  induction l as [|y l IH]; intros k index H; simpl; [reflexivity|].
  simpl in H. destruct (Nat.eqb_spec k index) as [E|_]; [lia|].
  f_equal. apply IH. lia.
Qed.

Lemma removeNoteFrom_length l : forall k index,
  k <= index -> index < k + List.length l ->
  S (List.length (removeNoteFrom k index l)) = List.length l.
Proof.
  induction l as [|y l IH]; intros k index H1 H2; simpl in *; [lia|].
  destruct (Nat.eqb_spec k index) as [E|E].
  - rewrite removeNoteFrom_beyond; [reflexivity|lia].
  - simpl. f_equal. apply IH; lia.
Qed.

(** X9: on the notes of a category, removing the note just added gives
    back the list; replacing or removing at an index past the end
    changes nothing; removing at an index inside takes away exactly one
    note, so the last note of a category can be removed; replacing
    inside keeps the length and puts the value at the index. *)
Theorem note_list_edits (l : list jsstring) (index : nat) (v : jsstring) :
  removeNote (List.length l) (l ++ [[]]) = l
  /\ (List.length l <= index ->
      replaceNote index v l = l /\ removeNote index l = l)
  /\ (index < List.length l ->
      S (List.length (removeNote index l)) = List.length l
      /\ List.length (replaceNote index v l) = List.length l
      /\ nth_error (replaceNote index v l) index = Some v).
Proof.
  split; [|split].
  - exact (removeNoteFrom_last l [] 0).
  - intros H. split.
    + unfold replaceNote. apply mapi_from_same. intros x k Hk.
      destruct (Nat.eqb_spec (0 + k) index); [lia|reflexivity].
    + apply removeNoteFrom_beyond. simpl. right. exact H.
  - intros H. split; [apply removeNoteFrom_length; lia|]. split.
    + apply mapi_from_length.
    + unfold replaceNote.
      destruct (nth_error l index) as [x|] eqn:E.
      * rewrite (mapi_from_nth _ _ 0 _ E). simpl. now rewrite Nat.eqb_refl.
      * apply nth_error_None in E. lia.
Qed.

Lemma note_list_edits_witness :
  replaceNote 3 (lit "late") [lit "a"; lit "b"] = [lit "a"; lit "b"]
  /\ List.length (removeNote 0 [lit "only"]) = 0.
Proof.
  destruct (note_list_edits [lit "a"; lit "b"] 3 (lit "late"))
    as (_ & Hout & _).
  destruct (note_list_edits [lit "only"] 0 []) as (_ & _ & Hin).
  split.
  - apply Hout. simpl. lia.
  - destruct Hin as (Hlen & _); [simpl; lia|].
    change (List.length [lit "only"]) with 1 in Hlen. lia.
Defined.

Lemma removeNote_last l x : removeNote (List.length l) (l ++ [x]) = l.
Proof. exact (removeNoteFrom_last l x 0). Qed.

Lemma editNotes_add_remove c r :
  editNotes c (removeNote (List.length (notesOf (sectionInputs r) c)))
            (editNotes c (fun l => l ++ [[]]) r) = r.
Proof.
  destruct r as [? ? ? ? ? ? ? ? si ?].
  destruct si, c; unfold editNotes, set_sectionInputs; simpl;
    rewrite removeNote_last; reflexivity.
Qed.

(** X10: adding a note to a category of a section and then removing the
    note at the former length gives back the state, when the rows of
    that id have that many notes in the category. *)
Theorem add_then_remove_note (i : jsstring) (c : InputCategory) (n : nat)
    (s : State) :
  (forall r, In r (rows s) -> id r = i ->
             List.length (notesOf (sectionInputs r) c) = n) ->
  handleRemoveSectionInput i c n (handleAddSectionInput i c s) = s.
Proof.
  intros Hn. unfold handleRemoveSectionInput, handleAddSectionInput.
  rewrite rows_with_rows, with_rows_twice.
  rewrite mapRow_twice by reflexivity.
  assert (E : mapRow i (fun r => editNotes c (removeNote n)
                                   (editNotes c (fun l => l ++ [[]]) r))
                     (rows s) = rows s).
  { unfold mapRow. rewrite <- (map_id (rows s)) at 2. apply map_ext_in.
    intros r Hr. destruct (streq (id r) i) eqn:Ei; [|reflexivity].
    apply streq_true in Ei. rewrite <- (Hn r Hr Ei).
    apply editNotes_add_remove. }
  rewrite E. apply with_rows_same.
Qed.

Lemma add_then_remove_note_witness :
  handleRemoveSectionInput (lit "1") Facts 1
    (handleAddSectionInput (lit "1") Facts
       (with_rows Samples.localDraft [Samples.rowA; Samples.rowB]))
  = with_rows Samples.localDraft [Samples.rowA; Samples.rowB].
Proof.
  apply add_then_remove_note.
  intros r [<-|[<-|[]]] H; [reflexivity|].
  vm_compute in H. discriminate.
Defined.

(** ** The saved-documents index *)

Lemma insertDoc_In d l x : In x (insertDoc d l) <-> x = d \/ In x l.
Proof.
  induction l as [|e l IH]; simpl; [intuition|].
  break_if; simpl; [intuition|]. rewrite IH. intuition.
Qed.

Lemma insertDoc_length d l : List.length (insertDoc d l) = S (List.length l).
Proof.
  induction l as [|e l IH]; simpl; [reflexivity|].
  break_if; simpl; [reflexivity|now rewrite IH].
Qed.

Lemma sortDocs_app l d : sortDocs (l ++ [d]) = insertDoc d (sortDocs l).
Proof. unfold sortDocs. now rewrite fold_left_app. Qed.

Lemma sortDocs_In l x : In x (sortDocs l) <-> In x l.
Proof.
  induction l as [|d l IH] using rev_ind; [reflexivity|].
  rewrite sortDocs_app, insertDoc_In, IH, in_app_iff. simpl. intuition.
Qed.

Lemma sortDocs_length l : List.length (sortDocs l) = List.length l.
Proof.
  induction l as [|d l IH] using rev_ind; [reflexivity|].
  rewrite sortDocs_app, insertDoc_length, IH, length_app. simpl. lia.
Qed.

Lemma insertDoc_last d l :
  Forall (fun e => (updatedAt d <= updatedAt e)%Z) l ->
  insertDoc d l = l ++ [d].
Proof.
  induction 1 as [|e l He _ IH]; simpl; [reflexivity|].
  destruct (Z.ltb_spec (updatedAt e) (updatedAt d)); [lia|now rewrite IH].
Qed.

Lemma sortedDesc_snoc l d :
  sortedDesc (l ++ [d]) ->
  sortedDesc l /\ Forall (fun e => (updatedAt d <= updatedAt e)%Z) l.
Proof.
  induction l as [|e l IH]; simpl; [intros _; split; [exact I|constructor]|].
  intros (Hall & Hs). destruct (IH Hs) as (Hs' & Hd).
  apply Forall_app in Hall. destruct Hall as (Hl & Hlast).
  inversion Hlast; subst.
  split; [split; assumption|constructor; assumption].
Qed.

Lemma sortDocs_sorted_same l : sortedDesc l -> sortDocs l = l.
Proof.
  induction l as [|d l IH] using rev_ind; [reflexivity|].
  intros Hs. destruct (sortedDesc_snoc _ _ Hs) as (Hl & Hd).
  rewrite sortDocs_app, (IH Hl). now apply insertDoc_last.
Qed.

Lemma insertDoc_first d l :
  Forall (fun e => (updatedAt e < updatedAt d)%Z) l -> insertDoc d l = d :: l.
Proof.
  destruct 1 as [|e l He _]; simpl; [reflexivity|].
  destruct (Z.ltb_spec (updatedAt e) (updatedAt d)); [reflexivity|lia].
Qed.

(** What the index lookup of the local save finds. *)
Lemma findIndexFrom_replace i (f : SavedDocument -> SavedDocument) docs :
  forall k0 k,
  findIndexFrom i k0 docs = Some k ->
  exists d, In d docs /\ doc_id d = i
            /\ In (f d) (replaceAt (k - k0) f docs)
            /\ List.length (replaceAt (k - k0) f docs) = List.length docs
            /\ (forall x, In x docs -> doc_id x <> i ->
                          In x (replaceAt (k - k0) f docs))
            /\ k0 <= k.
Proof.
  induction docs as [|e docs IH]; intros k0 k H; simpl in H; [discriminate|].
  destruct (streq (doc_id e) i) eqn:E.
  - inversion H; subst. rewrite Nat.sub_diag. exists e. simpl.
    apply streq_true in E. repeat split; auto.
    intros x [<-|Hx] Hne; [contradiction|now right].
  - destruct (IH _ _ H) as (d & Hin & Hid & Hf & Hlen & Hoth & Hle).
    replace (k - k0) with (S (k - S k0)) by lia.
    exists d. simpl. repeat split; auto; try lia.
    intros x [<-|Hx] Hne; [now left|right; now apply Hoth].
Qed.

Lemma findIndexFrom_none i docs : forall k0,
  findIndexFrom i k0 docs = None -> ~ In i (map doc_id docs).
Proof.
  induction docs as [|e docs IH]; intros k0 H; simpl in *; [tauto|].
  destruct (streq (doc_id e) i) eqn:E; [discriminate|].
  apply streq_false in E. intros [Hin|Hin]; [contradiction|].
  exact (IH _ H Hin).
Qed.




(** X12: in local mode a save leaves the index sorted newest first,
    keeps every stored document whose id is not the open one, and either
    keeps the number of documents (the open document was found and is
    replaced) or adds exactly one. *)
Theorem local_save_index
    (inCall : bool) (now : Z) (idClock : N) (o : SaveOutcome) (h : Hook)
    (t : jsstring) (s : State) :
  operatingMode s = Local ->
  trim t <> [] ->
  let s' := handleSaveDocument inCall now idClock o h t s in
  sortedDesc (savedDocuments s')
  /\ (forall x, In x (savedDocuments s) ->
                currentDocumentId s <> Some (doc_id x) ->
                In x (savedDocuments s'))
  /\ (List.length (savedDocuments s') = List.length (savedDocuments s)
      \/ List.length (savedDocuments s') = S (List.length (savedDocuments s))).
Proof.
  intros Hmode Ht s'. subst s'. unfold handleSaveDocument.
  destruct (trim t) as [|c0 r0] eqn:T; [contradiction|]. cbn [truthy negb].
  rewrite Hmode.
  rewrite (proj1 (saveLocal_fields inCall now idClock (c0 :: r0) s)).
  unfold savedDocumentsUpdater.
  destruct (match currentDocumentId s with
            | Some c => if truthy c
                        then findIndexFrom c 0 (savedDocuments s) else None
            | None => None
            end) as [k|] eqn:F; cbn [fst].
  - destruct (currentDocumentId s) as [c|] eqn:C; [|discriminate].
    destruct (truthy c); [|discriminate].
    destruct (@findIndexFrom_replace c
                (fun d => {| doc_id := doc_id d; doc_title := c0 :: r0;
                             createdAt := createdAt d; updatedAt := now;
                             doc_rows := rows s |}) (savedDocuments s) 0 k F)
      as (d & _ & _ & _ & Hlen & Hoth & _).
    rewrite Nat.sub_0_r in Hlen, Hoth.
    split; [apply sortDocs_sorted|]. split.
    + intros x Hx Hne. apply sortDocs_In, Hoth; [exact Hx|].
      intros E. apply Hne. now rewrite E.
    + left. now rewrite sortDocs_length.
  - split; [apply sortDocs_sorted|]. split.
    + intros x Hx _. apply sortDocs_In, in_app_iff. now left.
    + right. rewrite sortDocs_length, length_app. simpl. lia.
Qed.

Lemma local_save_index_witness :
  List.length (savedDocuments
                 (handleSaveDocument false 30 31 Samples.anySave
                    Samples.anyHook (lit "Doc") Samples.localDraft)) = 1.
Proof.
  destruct (@local_save_index false 30 31 Samples.anySave Samples.anyHook
              (lit "Doc") Samples.localDraft) as (_ & _ & [H|H]).
  - reflexivity.
  - vm_compute. discriminate.
  - reflexivity.
  - exact H.
Defined.

(** X13: in local mode, with no open document and an index sorted
    newest first whose documents are all older than the save, the newly
    saved document is put first and the others follow in their order. *)
Theorem local_save_new_comes_first
    (inCall : bool) (now : Z) (idClock : N) (o : SaveOutcome) (h : Hook)
    (t : jsstring) (s : State) :
  operatingMode s = Local ->
  trim t <> [] ->
  currentDocumentId s = None ->
  sortedDesc (savedDocuments s) ->
  Forall (fun e => (updatedAt e < now)%Z) (savedDocuments s) ->
  savedDocuments (handleSaveDocument inCall now idClock o h t s)
  = {| doc_id := numberToString idClock; doc_title := trim t;
       createdAt := now; updatedAt := now; doc_rows := rows s |}
    :: savedDocuments s.
Proof.
  intros Hmode Ht Hcur Hs Hold. unfold handleSaveDocument.
  destruct (trim t) as [|c0 r0] eqn:T; [contradiction|]. cbn [truthy negb].
  rewrite Hmode.
  rewrite (proj1 (saveLocal_fields inCall now idClock (c0 :: r0) s)).
  unfold savedDocumentsUpdater. rewrite Hcur. cbn [fst].
  rewrite sortDocs_app, (sortDocs_sorted_same _ Hs).
  now apply insertDoc_first.
Qed.

Lemma local_save_new_comes_first_witness :
  map doc_title
      (savedDocuments
         (handleSaveDocument false 30 31 Samples.anySave Samples.anyHook
            (lit "Newer")
            (with_docs Samples.localDraft [Samples.savedA])))
  = [lit "Newer"; lit "Kept"].
Proof.
  rewrite (@local_save_new_comes_first false 30 31 Samples.anySave
             Samples.anyHook (lit "Newer")
             (with_docs Samples.localDraft [Samples.savedA])).
  - reflexivity.
  - reflexivity.
  - vm_compute. discriminate.
  - reflexivity.
  - simpl. split; [constructor|exact I].
  - repeat constructor.
Defined.

(** X14: a save under a blank title changes nothing in any mode; and
    while the mode is neither remote nor local, a save or a delete only
    records the invalid-state message: sections, index, open document
    and mode stay as they were. *)
Theorem rejected_save_and_delete
    (inCall : bool) (now : Z) (clock : N) (so : SaveOutcome)
    (d : DeleteOutcome) (h : Hook) (t i : jsstring) (s : State) :
  (trim t = [] -> handleSaveDocument inCall now clock so h t s = s)
  /\ (operatingMode s = Loading \/ operatingMode s = ModeError ->
      trim t <> [] ->
      handleSaveDocument inCall now clock so h t s
      = with_error s (Some (lit
          "Cannot save document. Application is not in a valid state."))
      /\ handleDeleteDocument clock d h i s
        = with_error s (Some (lit
            "Cannot delete document. Application is not in a valid state."))).
Proof.
  split.
  - intros T. unfold handleSaveDocument. now rewrite T.
  - intros Hm T. unfold handleSaveDocument, handleDeleteDocument.
    destruct (trim t); [contradiction|]. simpl.
    destruct Hm as [-> | ->]; split; reflexivity.
Qed.

Lemma rejected_save_and_delete_witness :
  handleSaveDocument true 30 31 Samples.anySave Samples.anyHook
                     (lit "   ") Samples.remoteSession
  = Samples.remoteSession
  /\ rows (handleSaveDocument true 30 31 Samples.anySave Samples.anyHook
             (lit "Doc") (initialState 5))
     = rows (initialState 5).
Proof.
  destruct (@rejected_save_and_delete true 30 31 Samples.anySave
              (DeleteFailed []) Samples.anyHook (lit "   ") []
              Samples.remoteSession) as (Hblank & _).
  destruct (@rejected_save_and_delete true 30 31 Samples.anySave
              (DeleteFailed []) Samples.anyHook (lit "Doc") []
              (initialState 5)) as (_ & Hinvalid).
  split; [apply Hblank; reflexivity|].
  destruct Hinvalid as (Hsave & _);
    [left; reflexivity|vm_compute; discriminate|].
  now rewrite Hsave.
Defined.

(** X15: after a remote save or delete that the store accepts and a
    reload that succeeds, the session is in remote mode with the index
    the store returned, no recorded error, no open document and a single
    default section: the reload resets the editor, also after a save. *)
Theorem remote_success_resets_editor
    (inCall : bool) (now : Z) (clock : N) (h : Hook) (t i savedId : jsstring)
    (docs : list SavedDocument) (s : State) :
  operatingMode s = Supabase ->
  supabase h = true ->
  let fresh := {| operatingMode := Supabase; appError := None;
                  rows := [createInitialRow clock]; savedDocuments := docs;
                  currentDocumentId := None;
                  isAiInitialized := isAiInitialized s |} in
  (trim t <> [] ->
   handleSaveDocument inCall now clock (SaveOk savedId (LoadOk docs)) h t s
   = fresh)
  /\ handleDeleteDocument clock (DeleteOk (LoadOk docs)) h i s = fresh.
Proof.
  intros Hm Hh fresh. split.
  - intros T. unfold handleSaveDocument.
    destruct (trim t); [contradiction|]. simpl. rewrite Hm, Hh.
    break_if; reflexivity.
  - unfold handleDeleteDocument. rewrite Hm, Hh. unfold closeIfOpen.
    break_if; reflexivity.
Qed.

Lemma remote_success_resets_editor_witness :
  rows (handleSaveDocument true 30 31
          (SaveOk (lit "r1") (LoadOk [Samples.savedA])) Samples.clientHook
          (lit "Doc") Samples.remoteSession)
  = [createInitialRow 31].
Proof.
  destruct (@remote_success_resets_editor true 30 31 Samples.clientHook
              (lit "Doc") [] (lit "r1") [Samples.savedA]
              Samples.remoteSession) as (Hsave & _).
  - reflexivity.
  - reflexivity.
  - rewrite Hsave; [reflexivity|vm_compute; discriminate].
Defined.

Lemma filter_sortedDesc (f : SavedDocument -> bool) l :
  sortedDesc l -> sortedDesc (filter f l).
Proof.
  induction l as [|d l IH]; simpl; [auto|].
  intros (Hall & Hs). destruct (f d); simpl; [|exact (IH Hs)].
  split; [|exact (IH Hs)].
  apply Forall_forall. intros x Hx. apply filter_In in Hx.
  rewrite Forall_forall in Hall. apply Hall, Hx.
Qed.

Lemma filter_twice {A} (f : A -> bool) l : filter f (filter f l) = filter f l.
Proof.
  induction l as [|x l IH]; simpl; [reflexivity|].
  destruct (f x) eqn:E; simpl; [rewrite E, IH|]; auto.
Qed.

Lemma idEq_neq a i : a <> Some i -> idEq a (Some i) = false.
Proof.
  destruct a as [c|]; simpl; [|reflexivity].
  intros H. apply streq_neq. intros E. apply H. now rewrite E.
Qed.

Lemma closeIfOpen_other now i st :
  idEq (currentDocumentId st) (Some i) = false -> closeIfOpen now i st = st.
Proof. intros H. unfold closeIfOpen. now rewrite H. Qed.

(** X16: in local mode, deleting a document leaves no document of that
    id in the index, keeps every other document and the order; the
    sections and the open-document id are untouched unless the deleted
    document was the open one; deleting the same id again changes
    nothing. *)
Theorem local_delete_document
    (now : N) (o : DeleteOutcome) (h : Hook) (i : jsstring) (s : State) :
  operatingMode s = Local ->
  let s' := handleDeleteDocument now o h i s in
  ~ In i (map doc_id (savedDocuments s'))
  /\ (forall x, In x (savedDocuments s) -> doc_id x <> i ->
                In x (savedDocuments s'))
  /\ (sortedDesc (savedDocuments s) -> sortedDesc (savedDocuments s'))
  /\ (currentDocumentId s <> Some i ->
      rows s' = rows s /\ currentDocumentId s' = currentDocumentId s)
  /\ handleDeleteDocument now o h i s' = s'.
Proof.
  intros Hm s'. subst s'. unfold handleDeleteDocument. rewrite Hm.
  assert (D : forall st, savedDocuments (closeIfOpen now i st)
                         = savedDocuments st).
  { intros st. unfold closeIfOpen. break_if; reflexivity. }
  rewrite D. simpl savedDocuments. split; [|split; [|split; [|split]]].
  - intros H. apply in_map_iff in H. destruct H as (x & Hx & Hf).
    apply filter_In in Hf. destruct Hf as (_ & Hf).
    rewrite Hx, streq_refl in Hf. discriminate.
  - intros x Hx Hne. apply filter_In. split; [exact Hx|].
    now rewrite (streq_neq Hne).
  - apply filter_sortedDesc.
  - intros Hne. rewrite closeIfOpen_other by (now apply idEq_neq).
    split; reflexivity.
  - rewrite closeIfOpen_mode. simpl operatingMode. rewrite Hm.
    rewrite filter_twice. unfold closeIfOpen.
    cbn [currentDocumentId with_docs with_rows with_current].
    destruct (idEq (currentDocumentId s) (Some i)) eqn:E;
      cbn [currentDocumentId with_docs with_rows with_current idEq
           operatingMode appError rows savedDocuments isAiInitialized];
      [|rewrite E]; reflexivity.
Qed.

Lemma local_delete_document_witness :
  savedDocuments
    (handleDeleteDocument 40 (DeleteFailed []) Samples.anyHook (lit "d1")
       (with_docs Samples.localDraft [Samples.emptyDoc; Samples.savedA]))
  = [Samples.emptyDoc].
Proof.
  destruct (@local_delete_document 40 (DeleteFailed []) Samples.anyHook
              (lit "d1")
              (with_docs Samples.localDraft
                 [Samples.emptyDoc; Samples.savedA])) as (_ & _).
  - reflexivity.
  - reflexivity.
Defined.

(** ** What a reload finds in local storage *)

Lemma saveState_working s ls :
  writeThrows ls = false ->
  saveStateToLocalStorage s ls
  = {| readThrows := readThrows ls; writeThrows := false;
       rowsItem := Some (Json (rows s));
       docsItem := Some (Json (savedDocuments s));
       idItem := Some (Json (currentDocumentId s)) |}.
Proof.
  destruct ls. simpl. intros ->. reflexivity.
Qed.

(** X17: with a working store and no open document, what a local-mode
    session writes is what the next local initialisation reads: the same
    index, the same open-document id and the same sections, except that
    a blank draft (no section, or one section without input and output)
    is replaced by a fresh default section. *)
Theorem reload_without_open_document
    (t1 t2 : N) (ls : LocalStorage) (s s0 : State) :
  readThrows ls = false ->
  writeThrows ls = false ->
  idTruthy (currentDocumentId s) = false ->
  let r := fst (loadFromLocalStorage t1 t2
                  (saveStateToLocalStorage s ls) s0) in
  operatingMode r = Local
  /\ appError r = None
  /\ savedDocuments r = savedDocuments s
  /\ currentDocumentId r = currentDocumentId s
  /\ rows r = (if isBlankDraft (rows s) then [createInitialRow t2]
               else rows s).
Proof.
  intros Hr Hw Hc r. subst r. rewrite (saveState_working s ls Hw).
  unfold loadFromLocalStorage, getItem.
  cbn [readThrows rowsItem docsItem idItem]. rewrite Hr, Hc.
  destruct (isBlankDraft (rows s)); repeat split.
Qed.

Lemma reload_without_open_document_witness :
  rows (fst (loadFromLocalStorage 7 8
               (saveStateToLocalStorage Samples.localDraft Samples.goodStore)
               (initialState 5)))
  = [Samples.draftRow].
Proof.
  destruct (@reload_without_open_document 7 8 Samples.goodStore
              Samples.localDraft (initialState 5))
    as (_ & _ & _ & _ & H); [reflexivity|reflexivity|reflexivity|].
  exact H.
Defined.

(** X18: with a working store and an open document, the next local
    initialisation takes the sections from the first stored document of
    that id, not from the sections in the editor; when the index holds
    no such document it starts from a fresh default section, forgets the
    id and clears the stored id. *)
Theorem reload_with_open_document
    (t1 t2 : N) (ls : LocalStorage) (s s0 : State) (c : jsstring) :
  readThrows ls = false ->
  writeThrows ls = false ->
  currentDocumentId s = Some c ->
  truthy c = true ->
  let res := loadFromLocalStorage t1 t2 (saveStateToLocalStorage s ls) s0 in
  savedDocuments (fst res) = savedDocuments s
  /\ match find (fun d => streq (doc_id d) c) (savedDocuments s) with
     | Some d =>
         rows (fst res) = doc_rows d
         /\ currentDocumentId (fst res) = Some c
         /\ idItem (snd res) = Some (Json (Some c))
     | None =>
         rows (fst res) = [createInitialRow t2]
         /\ currentDocumentId (fst res) = None
         /\ idItem (snd res) = Some (Json None)
     end.
Proof.
  intros Hr Hw Hc Ht res. subst res. rewrite (saveState_working s ls Hw).
  unfold loadFromLocalStorage, getItem.
  cbn [readThrows rowsItem docsItem idItem]. rewrite Hr, Hc.
  cbn [idTruthy]. rewrite Ht. cbn [idEq].
  destruct (find (fun d => streq (doc_id d) c) (savedDocuments s));
    repeat split.
Qed.

Lemma reload_with_open_document_witness :
  rows (fst (loadFromLocalStorage 7 8
               (saveStateToLocalStorage
                  (with_current (with_docs Samples.localDraft [Samples.savedA])
                                (Some (lit "d1")))
                  Samples.goodStore)
               (initialState 5)))
  = [Samples.rowA; Samples.rowB].
Proof.
  destruct (@reload_with_open_document 7 8 Samples.goodStore
              (with_current (with_docs Samples.localDraft [Samples.savedA])
                            (Some (lit "d1")))
              (initialState 5) (lit "d1"))
    as (_ & H); [reflexivity|reflexivity|reflexivity|reflexivity|].
  change (find (fun d => streq (doc_id d) (lit "d1"))
               (savedDocuments
                  (with_current
                     (with_docs Samples.localDraft [Samples.savedA])
                     (Some (lit "d1")))))
    with (Some Samples.savedA) in H.
  exact (proj1 H).
Defined.

(** ** Generation requests *)

Lemma mapRow_ids i f l :
  (forall r, id (f r) = id r) -> map id (mapRow i f l) = map id l.
Proof.
  intros Hf. unfold mapRow. rewrite map_map. apply map_ext.
  intros r. break_if; [apply Hf|reflexivity].
Qed.

Lemma mapRow_others i f l r :
  In r l -> id r <> i -> In r (mapRow i f l).
Proof.
  intros Hr Hne. unfold mapRow. apply in_map_iff. exists r.
  split; [now rewrite (streq_neq Hne)|exact Hr].
Qed.

Lemma mapRow_target i f l r' :
  (forall r, id (f r) = id r) ->
  In r' (mapRow i f l) -> id r' = i -> exists r, In r l /\ r' = f r.
Proof.
  intros Hf Hin Hid. unfold mapRow in Hin. apply in_map_iff in Hin.
  destruct Hin as (r & Hr & Hin). exists r. split; [exact Hin|].
  destruct (streq (id r) i) eqn:E; [now symmetry|].
  apply streq_false in E. subst r'. contradiction.
Qed.

(** X19: a generation request for a section, whatever the service
    answers, keeps the number, order and ids of the rows, leaves every
    row of another id as it was, and leaves no row of that id loading;
    mode, index and open document are untouched. *)
Theorem generate_text_frame
    (i : jsstring) (ready : bool) (resp : ApiResponse) (s : State) :
  let s' := handleGenerateText i ready resp s in
  map id (rows s') = map id (rows s)
  /\ (forall r, In r (rows s) -> id r <> i -> In r (rows s'))
  /\ (forall r', In r' (rows s') -> id r' = i -> isLoading r' = Some false)
  /\ operatingMode s' = operatingMode s
  /\ savedDocuments s' = savedDocuments s
  /\ currentDocumentId s' = currentDocumentId s.
Proof.
  intros s'. subst s'. unfold handleGenerateText.
  destruct (negb (isAiInitialized s)).
  - rewrite rows_with_rows. split; [now apply mapRow_ids|].
    split; [intros; now apply mapRow_others|].
    split; [|repeat split].
    intros r' Hin Hid.
    destruct ((fun Hf => @mapRow_target i _ (rows s) r' Hf Hin Hid)
                (fun r => eq_refl))
      as (r & _ & ->). reflexivity.
  - destruct (find (fun r => streq (id r) i) (rows s)) as [row|] eqn:F.
    + destruct (generateText ready resp) as [text|message];
        rewrite rows_with_rows, mapRow_twice by reflexivity;
        (split; [now apply mapRow_ids|]);
        (split; [intros; now apply mapRow_others|]);
        (split; [|repeat split]);
        intros r' Hin Hid;
        destruct ((fun Hf => @mapRow_target i _ (rows s) r' Hf Hin Hid)
                (fun r => eq_refl))
          as (r & _ & ->); reflexivity.
    + split; [reflexivity|]. split; [auto|]. split; [|repeat split].
      intros r' Hin Hid. exfalso.
      apply (find_none _ _ F) in Hin. rewrite Hid, streq_refl in Hin.
      discriminate.
Qed.

(** X20: with the client and the model set, [generateText] returns a
    non-empty string for every answer of the API and never throws: a
    non-empty content is returned as it is, a rejection comes back as
    text; without them it throws. *)
Theorem generate_text_results (resp : ApiResponse) :
  (exists text, generateText true resp = inl text /\ text <> [])
  /\ (forall content, content <> [] ->
       generateText true (ApiContent (Some content)) = inl content)
  /\ (forall message,
       generateText true (ApiThrowsError message)
       = inl (lit "Error generating text: " ++ message))
  /\ generateText false resp
     = inr (lit "OpenAI client or model not initialized").
Proof.
  split; [|split; [|split]]; try reflexivity.
  - destruct resp as [[[|c r]|]| |]; simpl;
      (eexists; split; [reflexivity|]);
      intros E; apply (f_equal (@List.length N)) in E;
      rewrite ?length_app in E; vm_compute in E; discriminate E.
  - intros [|c r] H; [contradiction|reflexivity].
Qed.

(** X21: while the AI client is not initialised, a generation request
    does not depend on the service at all: it records "OpenAI client not
    initialized." on the rows of the id, not loading, and leaves the
    output, title and input of every row as they were. *)
Theorem generate_without_client
    (i : jsstring) (ready ready' : bool) (resp resp' : ApiResponse)
    (s : State) :
  isAiInitialized s = false ->
  let s' := handleGenerateText i ready resp s in
  s' = handleGenerateText i ready' resp' s
  /\ map output (rows s') = map output (rows s)
  /\ map title (rows s') = map title (rows s)
  /\ map input (rows s') = map input (rows s)
  /\ (forall r', In r' (rows s') -> id r' = i ->
       error r' = Some (lit "OpenAI client not initialized.")
       /\ isLoading r' = Some false).
Proof.
  intros Hinit s'. subst s'. unfold handleGenerateText. rewrite Hinit.
  cbn [negb]. rewrite rows_with_rows.
  split; [reflexivity|].
  assert (M : forall (A : Type) (g : DocumentRow -> A),
              (forall r l e, g (set_loading_error r l e) = g r) ->
              forall f, f = (fun r => set_loading_error r (Some false)
                         (Some (lit "OpenAI client not initialized."))) ->
              map g (mapRow i f (rows s)) = map g (rows s)).
  { intros A g Hg f ->. unfold mapRow. rewrite map_map. apply map_ext.
    intros r. break_if; [apply Hg|reflexivity]. }
  split; [apply M; reflexivity|]. split; [apply M; reflexivity|].
  split; [apply M; reflexivity|].
  intros r' Hin Hid.
  destruct ((fun Hf => @mapRow_target i _ (rows s) r' Hf Hin Hid)
                (fun r => eq_refl))
    as (r & _ & ->). split; reflexivity.
Qed.

Lemma generate_without_client_witness :
  map error
      (rows (handleGenerateText (lit "1") true (ApiContent None)
               (initialState 5)))
  = map error (rows (handleGenerateText (lit "1") false ApiThrowsOther
                       (initialState 5))).
Proof.
  destruct (@generate_without_client (lit "1") true false (ApiContent None)
              ApiThrowsOther (initialState 5) eq_refl) as (H & _).
  now rewrite H.
Defined.

(** X22: the AI client is initialised exactly when the key, the URL and
    the model are all set to non-empty strings; otherwise the error
    recorded names the first one missing, in that order. *)
Theorem openai_initialisation (env : Prompt.Env) :
  fst (Prompt.initEffect env)
  = Prompt.present (Prompt.VITE_OPENAI_API_KEY env)
    && Prompt.present (Prompt.VITE_OPENAI_API_URL env)
    && Prompt.present (Prompt.VITE_OPENAI_MODEL env)
  /\ snd (Prompt.initEffect env)
     = (if negb (Prompt.present (Prompt.VITE_OPENAI_API_KEY env))
        then Some (lit "OpenAI API Key is missing")
        else if negb (Prompt.present (Prompt.VITE_OPENAI_API_URL env))
        then Some (lit "OpenAI API URL is missing")
        else if negb (Prompt.present (Prompt.VITE_OPENAI_MODEL env))
        then Some (lit "OpenAI Model is missing")
        else None).
Proof.
  unfold Prompt.initEffect, Prompt.initializeOpenAI.
  destruct (Prompt.present (Prompt.VITE_OPENAI_API_KEY env));
    [|split; reflexivity].
  destruct (Prompt.present (Prompt.VITE_OPENAI_API_URL env));
    [|split; reflexivity].
  destruct (Prompt.VITE_OPENAI_MODEL env) as [[|c r]|]; split; reflexivity.
Qed.

(** ** The notes in the prompt *)

Lemma categoryText_nil name inputs :
  name <> [] ->
  (Prompt.categoryText name inputs = [] <-> Prompt.validInputs inputs = []).
Proof.
  intros Hn. unfold Prompt.categoryText.
  destruct (Prompt.validInputs inputs) as [|v vs]; [tauto|].
  split; [|discriminate].
  destruct name as [|c r]; [contradiction|]. discriminate.
Qed.

Lemma join_nil sep l :
  Forall (fun x => truthy x = true) l -> join sep l = [] -> l = [].
Proof.
  destruct 1 as [|x l Hx _]; [reflexivity|].
  destruct x as [|c r]; [discriminate|].
  destruct l; discriminate.
Qed.

Lemma filter_truthy_Forall l : Forall (fun x => truthy x = true) (filter truthy l).
Proof.
  apply Forall_forall. intros x Hx. now apply filter_In in Hx.
Qed.

Lemma filter_nil_iff {A} (f : A -> bool) l :
  filter f l = [] <-> Forall (fun x => f x = false) l.
Proof.
  induction l as [|x l IH]; simpl; [split; [constructor|reflexivity]|].
  destruct (f x) eqn:E.
  - split; [discriminate|]. intros H. inversion H; congruence.
  - rewrite IH. split; [now constructor|]. intros H. now inversion H.
Qed.

Lemma validInputs_twice l :
  Prompt.validInputs (Prompt.validInputs l) = Prompt.validInputs l.
Proof. apply filter_twice. Qed.

(** X23: the notes paragraph of the prompt is empty exactly when every
    note of every category is blank, and blank notes never contribute:
    dropping them from a category leaves the paragraph as it is. *)
Theorem notes_paragraph (si : SectionInputs) (c : InputCategory) :
  (Prompt.sectionInputsText si = []
   <-> forall c', Prompt.validInputs (notesOf si c') = [])
  /\ Prompt.sectionInputsText
       (withNotes si c (Prompt.validInputs (notesOf si c)))
     = Prompt.sectionInputsText si.
Proof.
  split.
  - unfold Prompt.sectionInputsText. split.
    + intros H. apply join_nil in H; [|apply filter_truthy_Forall].
      apply filter_nil_iff in H. unfold Prompt.categories in H. simpl in H.
      assert (T : forall name inputs, name <> [] ->
                truthy (Prompt.categoryText name inputs) = false ->
                Prompt.validInputs inputs = []).
      { intros name inputs Hn Ht. apply (categoryText_nil inputs Hn).
        destruct (Prompt.categoryText name inputs); [reflexivity|
        discriminate]. }
      inversion H as [|? ? H1 H']; subst. inversion H' as [|? ? H2 H'']; subst.
      inversion H'' as [|? ? H3 H3']; subst.
      inversion H3' as [|? ? H4 H4']; subst.
      inversion H4' as [|? ? H5 _]; subst.
      intros [| | | |]; simpl; eapply T; try eassumption; discriminate.
    + intros H. unfold Prompt.categories. cbn [map fst snd].
      unfold Prompt.categoryText.
      rewrite (H Facts), (H Concepts), (H Opinions), (H Examples), (H Other).
      reflexivity.
  - unfold Prompt.sectionInputsText, Prompt.categories, Prompt.categoryText.
    destruct si, c; simpl; now rewrite validInputs_twice.
Qed.

(** ** The document manager *)

(** X24: the manager asks for a deletion only on the second of two
    consecutive clicks on the same document: starting with no pending
    confirmation, the deletions requested are at most half the clicks,
    each is of a clicked id, one click requests nothing and a double
    click requests one deletion and leaves nothing pending. *)
Theorem delete_needs_two_clicks (ids : list jsstring) (i : jsstring) :
  2 * List.length (snd (Manager.clicks None ids)) <= List.length ids
  /\ (forall d, In d (snd (Manager.clicks None ids)) -> In d ids)
  /\ Manager.clicks None [i] = (Some i, [])
  /\ Manager.clicks None [i; i] = (None, [i]).
Proof.
  assert (G : forall l pending,
            2 * List.length (snd (Manager.clicks pending l))
              + (match fst (Manager.clicks pending l) with
                 | Some _ => 1 | None => 0 end)
            <= List.length l
               + (match pending with Some _ => 1 | None => 0 end)
            /\ forall d, In d (snd (Manager.clicks pending l)) -> In d l).
  { induction l as [|x l IH]; intros pending; simpl.
    - split; [destruct pending; simpl; lia|tauto].
    - unfold Manager.handleDelete.
      destruct (idEq pending (Some x)) eqn:E.
      + destruct (IH None) as (Hc & Hin).
        destruct (Manager.clicks None l) as [final more]. simpl in *.
        destruct pending; [|discriminate]. split; [lia|].
        intros d [<-|Hd]; [now left|right; now apply Hin].
      + destruct (IH (Some x)) as (Hc & Hin).
        destruct (Manager.clicks (Some x) l) as [final more]. simpl in *.
        split; [destruct pending; lia|]. intros d Hd. right. now apply Hin. }
  destruct (G ids None) as (Hc & Hin).
  split; [destruct (fst (Manager.clicks None ids)); simpl in Hc; lia|].
  split; [exact Hin|]. split; [reflexivity|].
  simpl. unfold Manager.handleDelete. simpl. now rewrite streq_refl.
Qed.

(** X25: the save button of the manager hands over a title exactly when
    the typed title is not blank, and the title handed over is trimmed,
    so it passes the check of the save handler unchanged. *)
Theorem manager_save_title (newTitle : jsstring) :
  (Manager.handleSave newTitle = None
   <-> forallb isWhiteSpace newTitle = true)
  /\ (forall t, Manager.handleSave newTitle = Some t ->
                t = trim newTitle /\ t <> [] /\ trim t = t).
Proof.
  unfold Manager.handleSave. pose proof (blank_iff newTitle) as B.
  destruct (truthy (trim newTitle)) eqn:T; simpl in B; rewrite <- B.
  - split; [split; discriminate|].
    intros t H. inversion H; subst. split; [reflexivity|].
    split; [|apply trim_idem].
    intros E. rewrite E in T. discriminate.
  - split; [split; reflexivity|discriminate].
Qed.
